(** * rgmatch-rs analysis scripts: a shallow embedding

    The repository ships two Python scripts that audit the matcher's output:

    - [scripts/compare_outputs.py] loads two matcher outputs, keys every row,
      computes the keyed set difference and exports a stratified sample of
      the rows found only in the Rust output;
    - [scripts/verify_matches.py] re-checks the sampled rows against the
      gene coordinates of a GTF annotation.

    Python integers are unbounded and are modelled by [Z]; [//] and [%] are
    floor division and its remainder, which is what [Z.div] and [Z.modulo]
    compute.  Python [str] values are modelled by [string] (a sequence of
    8-bit characters, so the text is taken to be ASCII/UTF-8 bytes).
    A Python exception is a [Raise] in the [result] monad. *)

From Stdlib Require Import ZArith Lia Ascii String.
From stdpp Require Import base option list sorting strings gmap.

Local Open Scope Z_scope.

(** ** Python primitives used by the scripts *)

Module Py.

Inductive exn := IndexError | ValueError | TypeError | ZeroDivisionError.

Inductive result (A : Type) : Type :=
| Ok (a : A)
| Raise (e : exn).
Global Arguments Ok {A} a.
Global Arguments Raise {A} e.

Global Instance result_ret : MRet result := fun A a => Ok a.
Global Instance result_bind : MBind result := fun A B f m =>
  match m with
  | Ok a => f a
  | Raise e => Raise e
  end.
Global Instance result_fmap : FMap result := fun A B f m =>
  match m with
  | Ok a => Ok (f a)
  | Raise e => Raise e
  end.

(** [len(x)] *)
Definition len {A} (l : list A) : Z := Z.of_nat (length l).

(** [xs[i]] on a list: [IndexError] out of range (indices are never
    negative in the scripts). *)
Definition getitem {A} (xs : list A) (i : nat) : result A :=
  match xs !! i with
  | Some x => Ok x
  | None => Raise IndexError
  end.

(** [c in s] for a single character. *)
Fixpoint mem_char (c : ascii) (s : string) : bool :=
  match s with
  | EmptyString => false
  | String d s' => if decide (d = c) then true else mem_char c s'
  end.

(** [s.startswith(p)]. *)
Definition startswith (s p : string) : bool := String.prefix p s.

(** [needle in hay]: substring test. *)
Fixpoint contains (needle hay : string) : bool :=
  String.prefix needle hay ||
  match hay with
  | EmptyString => false
  | String _ hay' => contains needle hay'
  end.

(** [str.isspace] on the ASCII range: TAB, LF, VT, FF, CR, the four
    separators FS, GS, RS, US and the space. *)
Definition isspace (c : ascii) : bool :=
  let n := nat_of_ascii c in
  ((9 <=? n)%nat && (n <=? 13)%nat) || ((28 <=? n)%nat && (n <=? 32)%nat).

Fixpoint lstrip (s : string) : string :=
  match s with
  | EmptyString => EmptyString
  | String c s' => if isspace c then lstrip s' else s
  end.

Fixpoint rstrip (s : string) : string :=
  match s with
  | EmptyString => EmptyString
  | String c s' =>
      match rstrip s' with
      | EmptyString => if isspace c then EmptyString else String c EmptyString
      | r => String c r
      end
  end.

(** [s.strip()] *)
Definition strip (s : string) : string := rstrip (lstrip s).

(** [s.split(sep)] for a one-character separator; [''.split(sep)] is
    [['']]. *)
Fixpoint split (sep : ascii) (s : string) : list string :=
  match s with
  | EmptyString => [EmptyString]
  | String c s' =>
      if decide (c = sep) then EmptyString :: split sep s'
      else match split sep s' with
           | h :: t => String c h :: t
           | [] => [String c EmptyString]
           end
  end.

(** The cut at the last occurrence of [sep], if there is one. *)
Fixpoint rpartition (sep : ascii) (s : string) : option (string * string) :=
  match s with
  | EmptyString => None
  | String c s' =>
      match rpartition sep s' with
      | Some (a, b) => Some (String c a, b)
      | None => if decide (c = sep) then Some (EmptyString, s') else None
      end
  end.

(** [s.rsplit(sep, maxsplit)]: cut at the last separator, at most
    [maxsplit] times, working leftwards. *)
Fixpoint rsplit (sep : ascii) (maxsplit : nat) (s : string) : list string :=
  match maxsplit with
  | O => [s]
  | S n =>
      match rpartition sep s with
      | None => [s]
      | Some (a, b) => rsplit sep n a ++ [b]
      end
  end.

Definition digit_val (c : ascii) : option Z :=
  let n := nat_of_ascii c in
  if ((48 <=? n)%nat && (n <=? 57)%nat) then Some (Z.of_nat n - 48) else None.

(** The digits of a decimal literal, as [int()] reads them: at least one
    digit, and single underscores allowed between digits only. *)
Fixpoint int_digits (s : string) (acc : Z) (after_digit : bool) : option Z :=
  match s with
  | EmptyString => if after_digit then Some acc else None
  | String c s' =>
      match digit_val c with
      | Some d => int_digits s' (10 * acc + d) true
      | None =>
          if decide (c = "_"%char)
          then (if after_digit then int_digits s' acc false else None)
          else None
      end
  end.

(** The whitespace that [int()] skips around an ASCII text: TAB, LF, VT,
    FF, CR and the space.  Unlike [str.strip] it does not skip the
    separators FS, GS, RS and US: [int('5\x1c')] is a [ValueError]. *)
Definition int_isspace (c : ascii) : bool :=
  let n := nat_of_ascii c in
  ((9 <=? n)%nat && (n <=? 13)%nat) || (n =? 32)%nat.

Fixpoint int_lstrip (s : string) : string :=
  match s with
  | EmptyString => EmptyString
  | String c s' => if int_isspace c then int_lstrip s' else s
  end.

Fixpoint int_rstrip (s : string) : string :=
  match s with
  | EmptyString => EmptyString
  | String c s' =>
      match int_rstrip s' with
      | EmptyString => if int_isspace c then EmptyString else String c EmptyString
      | r => String c r
      end
  end.

(** [int(s)] on a string: surrounding whitespace is dropped, then an
    optional sign and a decimal literal; anything else is [ValueError].
    The text is ASCII, so the digits are the ASCII digits.  (The cap that
    recent CPython versions put on the number of digits is an interpreter
    setting and is not modelled.) *)
Definition int (s : string) : result Z :=
  let t := int_rstrip (int_lstrip s) in
  let parsed :=
    match t with
    | String "+" r => int_digits r 0 false
    | String "-" r => Z.opp <$> int_digits r 0 false
    | _ => int_digits t 0 false
    end in
  match parsed with
  | Some z => Ok z
  | None => Raise ValueError
  end.

End Py.
Import Py.

(** ** [scripts/compare_outputs.py] *)

Module CompareOutputs.

(** The thirteen columns [COLUMNS] that [pd.read_csv] names.  Every cell is
    kept as the text of the field: the script only ever uses [Region],
    [Gene], [Transcript] and [Area], which are text columns, and it
    concatenates them as strings.  Missing cells (which pandas reads as NaN)
    are outside the model. *)
Record Columns := {
  Region : string; Midpoint : string; Gene : string; Transcript : string;
  ExonIntron : string; Area : string; Distance : string;
  TSSDistance : string; PercRegion : string; PercArea : string;
  Col11 : string; Col12 : string; Col13 : string
}.

(** The column names, and [row[name]]. *)
Inductive column :=
| cRegion | cMidpoint | cGene | cTranscript | cExonIntron | cArea
| cDistance | cTSSDistance | cPercRegion | cPercArea
| cCol11 | cCol12 | cCol13.

Definition getcol (name : column) (c : Columns) : string :=
  match name with
  | cRegion => Region c | cMidpoint => Midpoint c | cGene => Gene c
  | cTranscript => Transcript c | cExonIntron => ExonIntron c
  | cArea => Area c | cDistance => Distance c
  | cTSSDistance => TSSDistance c | cPercRegion => PercRegion c
  | cPercArea => PercArea c | cCol11 => Col11 c | cCol12 => Col12 c
  | cCol13 => Col13 c
  end.

(** A row of the frame returned by [load_output]: the columns read from
    the file and the added ["_key"] column. *)
Record Row := { cols : Columns; _key : string }.

Global Instance Columns_eq_dec : EqDecision Columns.
Proof. solve_decision. Defined.
Global Instance Row_eq_dec : EqDecision Row.
Proof. solve_decision. Defined.

(** [load_output]: the table is what [pd.read_csv(path, sep='\t',
    header=None, names=COLUMNS)] parsed; the function adds the key. *)
Definition load_output (table : list Columns) : list Row :=
  (fun c =>
     {| cols := c;
        _key := Region c +:+ "_" +:+ Gene c +:+ "_" +:+ Transcript c
                +:+ "_" +:+ Area c |}) <$> table.

(** The dictionary returned by [analyze_pair]. *)
Record Summary := {
  label : string;
  rust_total : Z; python_total : Z;
  rust_only : Z; python_only : Z; common : Z
}.

(** [df.head(n)]: the first [n] rows, or all but the last [-n] rows when
    [n] is negative. *)
Definition head {A} (n : Z) (l : list A) : list A :=
  if 0 <=? n then take (Z.to_nat n) l
  else take (length l - Z.to_nat (- n)) l.

(** [df.groupby("Area")]: the groups in increasing order of their label,
    each with its rows in frame order. *)
Definition groupby_Area (rows : list Row) : list (string * list Row) :=
  (fun a => (a, filter (fun r => Area (cols r) = a) rows))
    <$> merge_sort String.le (remove_dups (Area ∘ cols <$> rows)).

Section Sampler.

(** [str.__hash__]: CPython salts it per process (PYTHONHASHSEED), so it
    is a parameter of the model. *)
Variable hash : string → Z.

(** [max(1, sample_size // x.name.__hash__() % 5 + 1)]: [//] and [%]
    associate to the left and bind tighter than [+]. *)
Definition quota (sample_size : Z) (name : string) : result Z :=
  if decide (hash name = 0) then Raise ZeroDivisionError
  else Ok (Z.max 1 (sample_size / hash name mod 5 + 1)).

(** [rows.groupby("Area", group_keys=False).apply(lambda x:
    x.head(quota)).head(sample_size)].  With [group_keys=False] pandas
    concatenates the per-group results in group order, except when every
    result carries the index of its whole group: then the concatenation
    is put back in the order of the frame. *)
Definition stratified_sample (sample_size : Z) (rows : list Row)
  : result (list Row) :=
  picked ← mapM (fun g : string * list Row =>
                   n ← quota sample_size g.1; mret (g.2, head n g.2))
                (groupby_Area rows);
  let applied :=
    if decide (Forall (fun p : list Row * list Row => p.2 = p.1) picked)
    then rows
    else concat (snd <$> picked) in
  mret (head sample_size applied).

(** [analyze_pair]: the returned dictionary together with the frame
    written to the sample file, if one is written.  The printed lines
    (totals, top-10 genes) are not part of the model. *)
Definition analyze_pair (df_rs df_py : list Row) (lbl : string)
  : result (Summary * option (list Row)) :=
  let rs_keys : gset string := list_to_set (_key <$> df_rs) in
  let py_keys : gset string := list_to_set (_key <$> df_py) in
  let rs_only := rs_keys ∖ py_keys in
  let py_only := py_keys ∖ rs_keys in
  let common_keys := rs_keys ∩ py_keys in
  let rust_only_rows := filter (fun r => _key r ∈ rs_only) df_rs in
  let sample_size := Z.min 20 (len rust_only_rows) in
  sampled ← (if 0 <? sample_size
             then Some <$> stratified_sample sample_size rust_only_rows
             else mret None);
  mret ({| label := lbl;
           rust_total := len df_rs;
           python_total := len df_py;
           rust_only := Z.of_nat (size rs_only);
           python_only := Z.of_nat (size py_only);
           common := Z.of_nat (size common_keys) |}, sampled).

End Sampler.

(** [main]: both outputs are loaded and compared under the label "main";
    the returned dictionary is the row written to the summary file. *)
Definition main (hash : string → Z) (rust_output golden_output : list Columns)
  : result (Summary * option (list Row)) :=
  analyze_pair hash (load_output rust_output) (load_output golden_output) "main".

End CompareOutputs.

(** ** [scripts/verify_matches.py] *)

Module VerifyMatches.

(** The dictionary built by [parse_region]; [end] is a keyword here. *)
Record Region := { chrom : string; start : Z; end_ : Z; midpoint : Z }.

(** [parse_region]: the dictionary literal evaluates its values in order,
    so a missing part raises [IndexError] and a part that is not an
    integer raises [ValueError]. *)
Definition parse_region (region_str : string) : result Region :=
  let parts := rsplit "_" 2 region_str in
  c ← getitem parts 0;
  s ← getitem parts 1 ≫= int;
  e ← getitem parts 2 ≫= int;
  m1 ← getitem parts 1 ≫= int;
  m2 ← getitem parts 2 ≫= int;
  mret {| chrom := c; start := s; end_ := e; midpoint := (m1 + m2) / 2 |}.

(** [get_gene_coords]: the annotation is the sequence of lines that
    iterating over the open file yields.  [gene_start], [gene_end] and
    [strand] start as [None] and are assigned together just before the
    [break], so the returned triple is either [(None, None, None)],
    modelled by [None], or three values. *)
Fixpoint get_gene_coords (gtf : list string) (gene_id : string)
  : result (option (Z * Z * string)) :=
  match gtf with
  | [] => mret None
  | line :: rest =>
      if negb (contains gene_id line) || startswith line "#"
      then get_gene_coords rest gene_id
      else
        let fields := split "009" (strip line) in
        if len fields <? 9 then get_gene_coords rest gene_id
        else
          feature ← getitem fields 2;
          if decide (feature = "gene") then
            gene_start ← getitem fields 3 ≫= int;
            gene_end ← getitem fields 4 ≫= int;
            strand ← getitem fields 6;
            mret (Some (gene_start, gene_end, strand))
          else get_gene_coords rest gene_id
  end.

(** The dictionary returned by [verify_upstream_downstream]. *)
Module UpDown.
Record t := {
  valid : bool;
  reported_distance : Z;
  calculated_distance : Z;
  distance_matches : bool;
  within_threshold : bool
}.
End UpDown.

(** The dictionary returned by [verify_overlap]. *)
Module Overlap.
Record t := { valid : bool; overlaps_gene : bool }.
End Overlap.

(** The default of the keyword argument [config_distance]. *)
Definition config_distance_default : Z := 10000.

Definition verify_upstream_downstream (region : Region)
    (gene_start gene_end reported_distance config_distance : Z) : UpDown.t :=
  let actual_distance :=
    if midpoint region <? gene_start then gene_start - midpoint region
    else if midpoint region >? gene_end then midpoint region - gene_end
    else 0 in
  let is_valid := reported_distance <=? config_distance in
  let distance_matches := Z.abs (actual_distance - reported_distance) <=? 10 in
  {| UpDown.valid := is_valid;
     UpDown.reported_distance := reported_distance;
     UpDown.calculated_distance := actual_distance;
     UpDown.distance_matches := distance_matches;
     UpDown.within_threshold := is_valid |}.

Definition verify_overlap (region : Region) (gene_start gene_end : Z)
  : Overlap.t :=
  let overlaps := (start region <? gene_end) && (end_ region >? gene_start) in
  {| Overlap.valid := overlaps; Overlap.overlaps_gene := overlaps |}.

(** The value bound to [result] in [main]: one dictionary or the other. *)
Inductive verify_result :=
| OfUpDown (r : UpDown.t)
| OfOverlap (r : Overlap.t).

(** [result['valid']] *)
Definition result_valid (r : verify_result) : bool :=
  match r with
  | OfUpDown r => UpDown.valid r
  | OfOverlap r => Overlap.valid r
  end.

(** The three closing messages of [main]. *)
Inductive conclusion :=
| AllValid                    (* "All samples VALID - ..." *)
| AllInvalid                  (* "All samples INVALID - ..." *)
| Mixed (valid_count : Z).    (* "Mixed results (n/10 valid) - ..." *)

(** What [main] prints, one constructor per message. *)
Inductive printed :=
| Verifying (n : Z)
    (* "Verifying n samples..." *)
| SampleNotFound (i : nat) (region_str gene_id : string)
    (* "Sample i: region -> gene - GENE NOT FOUND" *)
| SampleReport (i : nat) (region_str gene_id : string)
    (gene_start gene_end : Z) (strand : string) (area : string)
    (distance : Z) (res : verify_result) (verdict : string)
    (* "Sample i: region", "Gene: ...", "Area: ...", "Result: ...",
       "Verdict: ..." *)
| SummaryValid (valid_count : Z)
    (* "Valid: n/10" *)
| Conclusion (c : conclusion).

(** Lines 83 to 101 of the loop body: what is done with the looked-up
    coordinates.  It returns the new [valid_count] and the lines printed. *)
Definition report_sample (i : nat) (region_str gene_id area : string)
    (distance : Z) (region : Region) (coords : option (Z * Z * string))
    (valid_count : Z) : Z * list printed :=
  match coords with
  | None => (valid_count, [SampleNotFound (S i) region_str gene_id])
  | Some (gene_start, gene_end, strand) =>
      let res :=
        if bool_decide (area = "UPSTREAM" ∨ area = "DOWNSTREAM")
        then OfUpDown (verify_upstream_downstream region gene_start gene_end
                         distance config_distance_default)
        else OfOverlap (verify_overlap region gene_start gene_end) in
      let verdict := if result_valid res then "VALID" else "INVALID" in
      let valid_count' :=
        if result_valid res then valid_count + 1 else valid_count in
      (valid_count',
       [SampleReport (S i) region_str gene_id gene_start gene_end strand
          area distance res verdict])
  end.

(** The body of the [for] loop on one row of the sample file. *)
Definition verify_sample (gtf : list string) (i : nat) (row : list string)
    (valid_count : Z) : result (Z * list printed) :=
  region_str ← getitem row 0;
  gene_id ← getitem row 2;
  area ← getitem row 5;
  distance ← (d ← getitem row 6; if decide (d = "") then mret 0 else int d);
  region ← parse_region region_str;
  coords ← get_gene_coords gtf gene_id;
  mret (report_sample i region_str gene_id area distance region coords
          valid_count).

(** [for i, row in enumerate(rows)], from index [i] on. *)
Fixpoint verify_loop (gtf : list string) (i : nat) (rows : list (list string))
    (valid_count : Z) : result (Z * list printed) :=
  match rows with
  | [] => mret (valid_count, [])
  | row :: rest =>
      '(valid_count', out) ← verify_sample gtf i row valid_count;
      '(valid_count'', out') ← verify_loop gtf (S i) rest valid_count';
      mret (valid_count'', out ++ out')
  end.

Definition conclude (valid_count : Z) : conclusion :=
  if decide (valid_count = 10) then AllValid
  else if decide (valid_count = 0) then AllInvalid
  else Mixed valid_count.

(** The sample file, read as [main] reads it: the first line is the
    header, blank lines are dropped, every other line is stripped and cut at
    the tabs. *)
Definition read_samples (samples_file : list string) : list (list string) :=
  (fun l => split "009" (strip l))
    <$> filter (fun l => strip l ≠ "") (tail samples_file).

(** [main], on the lines of the annotation and of the sample file. *)
Definition main (gtf samples_file : list string) : result (list printed) :=
  let samples := read_samples samples_file in
  '(valid_count, out) ← verify_loop gtf 0 (take 10 samples) 0;
  mret (Verifying (len samples) :: out
          ++ [SummaryValid valid_count; Conclusion (conclude valid_count)]).

End VerifyMatches.

(** ** Concrete inputs used by the examples below *)

Module Inputs.
Import CompareOutputs.

Definition mkrow (region gene transcript area : string) : Columns :=
  {| Region := region; Midpoint := "150"; Gene := gene;
     Transcript := transcript; ExonIntron := "1"; Area := area;
     Distance := "0"; TSSDistance := "0"; PercRegion := "100";
     PercArea := "10"; Col11 := ""; Col12 := ""; Col13 := "" |}.

Definition row_upstream : Columns := mkrow "chr1_100_200" "G1" "T1" "UPSTREAM".
Definition row_intron : Columns := mkrow "chr1_100_200" "G1" "T1" "INTRON".

Definition keyed (c : Columns) (k : string) : Row := {| cols := c; _key := k |}.

Definition small_rs : list Row := load_output [row_upstream; row_intron].
Definition small_py : list Row := load_output [row_intron].

(** The values of [hash] on the area labels below in one CPython 3.11
    process (PYTHONHASHSEED=16); no other string is hashed in the
    examples. *)
Definition hash_seed16 (s : string) : Z :=
  if decide (s = "DOWNSTREAM") then -8257390350313531047
  else if decide (s = "GENE_BODY") then -1066228771020897259
  else if decide (s = "INTRON") then -8683548860438089324
  else if decide (s = "PROMOTER") then -7084368211289106636
  else if decide (s = "UPSTREAM") then -4890093071610164785
  else 1.

Definition genes : list string := ["G1"; "G2"; "G3"; "G4"; "G5"; "G6"].

Definition rows_of (area : string) (n : nat) : list Columns :=
  (fun g => mkrow "chr1_100_200" g "T1" area) <$> take n genes.

(** Twenty-two rows in five area categories. *)
Definition five_areas : list Columns :=
  rows_of "UPSTREAM" 1 ++ rows_of "DOWNSTREAM" 6 ++ rows_of "GENE_BODY" 5
    ++ rows_of "INTRON" 5 ++ rows_of "PROMOTER" 5.

Definition region_of (s e : Z) : VerifyMatches.Region :=
  {| VerifyMatches.chrom := "chr1"; VerifyMatches.start := s;
     VerifyMatches.end_ := e; VerifyMatches.midpoint := (s + e) / 2 |}.

(** ["\t".join(fields) + "\n"]: one line of a tab-separated file. *)
Definition tsv (fields : list string) : string :=
  String.concat (String "009" "") fields +:+ String "010" "".

(** An annotation with one gene, [G1], spanning 1000 to 2000. *)
Definition gtf_G1 : list string :=
  [ "# annotation of G1" +:+ String "010" "";
    tsv ["chr1"; "src"; "exon"; "1000"; "1200"; "."; "+"; "."; "gene_id G1;"];
    tsv ["chr1"; "src"; "gene"; "1000"; "2000"; "."; "+"; "."; "gene_id G1;"];
    tsv ["chr1"; "src"; "gene"; "5000"; "6000"; "."; "-"; "."; "gene_id G10;"] ].

Definition samples_header : string :=
  tsv ["Region"; "Midpoint"; "Gene"; "Transcript"; "ExonIntron"; "Area";
       "Distance"; "TSSDistance"; "PercRegion"; "PercArea"; "Col11";
       "Col12"; "Col13"; "_key"].

Definition sample_line (region gene area distance : string) : string :=
  tsv [region; "0"; gene; "T1"; "1"; area; distance; "0"; "100"; "10";
       "a"; "b"; "c"; "k"].

(** One sampled row, inside the gene. *)
Definition one_valid_sample : list string :=
  [samples_header; sample_line "chr1_1500_1600" "G1" "INTRON" "0"].

(** One sampled row whose gene is not in the annotation. *)
Definition one_missing_gene : list string :=
  [samples_header; sample_line "chr1_1500_1600" "G7" "INTRON" "0"].

(** A valid row followed by a row whose gene is not in the annotation. *)
Definition valid_then_missing : list string :=
  [samples_header; sample_line "chr1_400_600" "G1" "UPSTREAM" "500";
   sample_line "chr1_1500_1600" "G7" "INTRON" "0"].

(** The fields of the second row of [valid_then_missing], and what
    [main] prints for that file. *)
Definition missing_row : list string :=
  ["chr1_1500_1600"; "0"; "G7"; "T1"; "1"; "INTRON"; "0"; "0"; "100"; "10";
   "a"; "b"; "c"; "k"].

Definition valid_then_missing_out : list VerifyMatches.printed :=
  [ VerifyMatches.Verifying 2;
    VerifyMatches.SampleReport 1 "chr1_400_600" "G1" 1000 2000 "+"
      "UPSTREAM" 500
      (VerifyMatches.OfUpDown
         (VerifyMatches.UpDown.Build_t true 500 500 true true)) "VALID";
    VerifyMatches.SampleNotFound 2 "chr1_1500_1600" "G7";
    VerifyMatches.SummaryValid 1;
    VerifyMatches.Conclusion (VerifyMatches.Mixed 1) ].

End Inputs.

(** ** The properties' vocabulary

    Definitions used to state the properties: how the key, the annotation
    lookup and the tallies read in words. *)

Module Reading.
Import VerifyMatches.

(** [Region + "_" + Gene + "_" + Transcript + "_" + Area] *)
Definition joined_key (c : CompareOutputs.Columns) : string :=
  CompareOutputs.Region c +:+ "_" +:+ CompareOutputs.Gene c +:+ "_"
    +:+ CompareOutputs.Transcript c +:+ "_" +:+ CompareOutputs.Area c.

(** The tab-separated fields of an annotation line. *)
Definition fields_of (line : string) : list string :=
  split "009" (strip line).

(** An annotation record: a line that is not a comment and has at least
    nine fields. *)
Definition is_record (line : string) : bool :=
  negb (startswith line "#") && (9 <=? len (fields_of line)).

(** The feature type: the third field. *)
Definition feature_type (line : string) : string :=
  default "" (fields_of line !! 2%nat).

(** A record of type [gene] whose raw line contains the identifier. *)
Definition is_gene_record_for (gene_id line : string) : bool :=
  is_record line && bool_decide (feature_type line = "gene")
    && contains gene_id line.

(** Start, end and strand of a record: fields four, five and seven. *)
Definition record_coords (line : string) : result (option (Z * Z * string)) :=
  gene_start ← getitem (fields_of line) 3 ≫= int;
  gene_end ← getitem (fields_of line) 4 ≫= int;
  strand ← getitem (fields_of line) 6;
  mret (Some (gene_start, gene_end, strand)).

(** The lookup in words: the coordinates of the first gene record for the
    identifier, [None] (not found) when the source has none. *)
Definition lookup_gene (source : list string) (gene_id : string)
  : result (option (Z * Z * string)) :=
  match find (is_gene_record_for gene_id) source with
  | Some line => record_coords line
  | None => Ok None
  end.

(** The sample number a printed line is about. *)
Definition sample_number (l : printed) : option nat :=
  match l with
  | SampleNotFound i _ _ => Some i
  | SampleReport i _ _ _ _ _ _ _ _ _ => Some i
  | _ => None
  end.

(** The verdict a printed line carries: [result['valid']] of a report. *)
Definition verdict_of (l : printed) : option bool :=
  match l with
  | SampleReport _ _ _ _ _ _ _ _ res _ => Some (result_valid res)
  | _ => None
  end.

(** The number of VALID and of INVALID verdicts among printed lines. *)
Definition valid_tally (out : list printed) : nat :=
  length (filter (fun l => verdict_of l = Some true) out).
Definition invalid_tally (out : list printed) : nat :=
  length (filter (fun l => verdict_of l = Some false) out).

(** A printed line without its strand text. *)
Definition without_strand (l : printed) : printed :=
  match l with
  | SampleReport i r g gs ge _ area d res v =>
      SampleReport i r g gs ge "" area d res v
  | _ => l
  end.

End Reading.

(** ** Further vocabulary and inputs, for the properties beyond the claims *)

Module Cases.
Import CompareOutputs.

(** A row with another gene and transcript. *)
Definition with_gene_transcript (c : Columns) (g t : string) : Columns :=
  {| Region := Region c; Midpoint := Midpoint c; Gene := g; Transcript := t;
     ExonIntron := ExonIntron c; Area := Area c; Distance := Distance c;
     TSSDistance := TSSDistance c; PercRegion := PercRegion c;
     PercArea := PercArea c; Col11 := Col11 c; Col12 := Col12 c;
     Col13 := Col13 c |}.

(** What a key is meant to identify. *)
Definition assertion (c : Columns) : string * string * string * string :=
  (Region c, Gene c, Transcript c, Area c).

(** Gene, transcript and area hold no underscore. *)
Definition underscore_free (c : Columns) : Prop :=
  mem_char "_" (Gene c) = false ∧ mem_char "_" (Transcript c) = false
  ∧ mem_char "_" (Area c) = false.

(** The rows of [df_rs] whose key is not a key of [df_py]. *)
Definition rust_only_rows (df_rs df_py : list Row) : list Row :=
  filter (fun r => _key r ∉ (_key <$> df_py)) df_rs.

(** The dictionary of counts that [analyze_pair] builds. *)
Definition diff_summary (df_rs df_py : list Row) (lbl : string) : Summary :=
  {| label := lbl;
     rust_total := len df_rs;
     python_total := len df_py;
     rust_only :=
       Z.of_nat (size (list_to_set (C := gset string) (_key <$> df_rs)
                       ∖ list_to_set (_key <$> df_py)));
     python_only :=
       Z.of_nat (size (list_to_set (C := gset string) (_key <$> df_py)
                       ∖ list_to_set (_key <$> df_rs)));
     common :=
       Z.of_nat (size (list_to_set (C := gset string) (_key <$> df_rs)
                       ∩ list_to_set (_key <$> df_py))) |}.

(** The rows of [df_rs] whose key is a key of [df_py]. *)
Definition common_rows (df_rs df_py : list Row) : list Row :=
  filter (fun r => _key r ∈ (_key <$> df_py)) df_rs.

(** The rows of a frame in one area category. *)
Definition in_area (a : string) (rows : list Row) : list Row :=
  filter (fun r => Area (cols r) = a) rows.

(** What [apply] collects: for each label, in order, the group and its
    first rows, at least one and at most five. *)
Definition picked_from (rows : list Row)
    (labels : list string) (picked : list (list Row * list Row)) : Prop :=
  Forall2 (fun a p => ∃ q, 1 ≤ q ≤ 5
                            ∧ p = (in_area a rows, head q (in_area a rows)))
          labels picked.

(** The same, keeping the quota that [hash] gives to each label. *)
Definition picked_by (hash : string → Z) (n : Z) (rows : list Row)
    (labels : list string) (picked : list (list Row * list Row)) : Prop :=
  Forall2 (fun a p => ∃ q, quota hash n a = Ok q
                            ∧ p = (in_area a rows, head q (in_area a rows)))
          labels picked.

(** Nine Rust-only rows in two area categories. *)
Definition two_areas : list Columns :=
  Inputs.rows_of "UPSTREAM" 3 ++ Inputs.rows_of "INTRON" 6.

(** The lines "GENE NOT FOUND" among printed lines. *)
Definition is_not_found (l : VerifyMatches.printed) : bool :=
  match l with
  | VerifyMatches.SampleNotFound _ _ _ => true
  | _ => false
  end.
Definition notfound_tally (out : list VerifyMatches.printed) : nat :=
  length (filter (fun l => is_not_found l = true) out).

(** The closing message among printed lines. *)
Definition is_conclusion (c : VerifyMatches.conclusion)
    (l : VerifyMatches.printed) : Prop :=
  l = VerifyMatches.Conclusion c.

(** A hash that is zero on one label. *)
Definition hash_zero_on (label : string) (s : string) : Z :=
  if decide (s = label) then 0 else Inputs.hash_seed16 s.

(** An annotation whose gene record for [G2] has a start that is not a
    number. *)
Definition gtf_bad_start : list string :=
  [ Inputs.tsv ["chr1"; "src"; "gene"; "n/a"; "2000"; "."; "+"; ".";
                "gene_id G2;"];
    Inputs.tsv ["chr1"; "src"; "gene"; "1000"; "2000"; "."; "+"; ".";
                "gene_id G2;"] ].

(** A sample file with a header and blank lines only. *)
Definition blank_samples : list string :=
  [Inputs.samples_header; String "010" ""; "  " +:+ String "010" ""].

(** A directional sample row without distance, and the fields of its
    line. *)
Definition no_distance_row : list string :=
  ["chr1_400_600"; "500"; "G1"; "T1"; "1"; "UPSTREAM"; ""; "0"; "100"; "10";
   "a"; "b"; "c"; "k"].

(** A sample file whose second row has three fields only. *)
Definition short_second_row : list string :=
  [Inputs.samples_header;
   Inputs.sample_line "chr1_1500_1600" "G1" "INTRON" "0";
   Inputs.tsv ["chr1_1500_1600"; "0"; "G1"]].

End Cases.

(** ** Facts about the Python primitives *)

Module PyFacts.

(** Closed decidable facts are settled by evaluation. *)
Ltac by_computation := apply (bool_decide_unpack _); vm_compute; exact I.

Lemma append_assoc_str (a b c : string) : (a +:+ b) +:+ c = a +:+ (b +:+ c).
Proof.
  induction a as [|x a IH]; [reflexivity|].
  unfold String.app in *; simpl; by rewrite IH.
Qed.

Lemma append_cons (x : ascii) (a b : string) :
  String x a +:+ b = String x (a +:+ b).
Proof. reflexivity. Qed.

Lemma rpartition_absent sep s :
  mem_char sep s = false → rpartition sep s = None.
Proof.
  induction s as [|c s IH]; simpl; [done|].
  destruct (decide (c = sep)); [done|].
  intros H; by rewrite IH.
Qed.

(** Cutting at the last separator: the text after it has none. *)
Lemma rpartition_last sep a b :
  mem_char sep b = false →
  rpartition sep (a +:+ String sep b) = Some (a, b).
Proof.
  intros Hb. induction a as [|c a IH].
  - change ("" +:+ String sep b) with (String sep b). simpl.
    rewrite (rpartition_absent _ _ Hb).
    by destruct (decide (sep = sep)).
  - rewrite append_cons. simpl. by rewrite IH.
Qed.

Lemma rsplit_two sep c a b :
  mem_char sep a = false → mem_char sep b = false →
  rsplit sep 2 (c +:+ String sep (a +:+ String sep b)) = [c; a; b].
Proof.
  intros Ha Hb.
  change (String sep (a +:+ String sep b))
    with (String sep a +:+ String sep b).
  rewrite <- append_assoc_str.
  simpl. rewrite (rpartition_last _ _ _ Hb), (rpartition_last _ _ _ Ha).
  reflexivity.
Qed.

End PyFacts.

(** ** Properties of [compare_outputs.py] *)

Module CompareOutputsSpec.
Import CompareOutputs Inputs Reading Cases PyFacts.

Lemma load_output_elem (table : list Columns) (r : Row) :
  r ∈ load_output table ↔ ∃ c, c ∈ table ∧ cols r = c ∧ _key r = joined_key c.
Proof.
  unfold load_output. rewrite list_elem_of_fmap. split.
  - intros (c & -> & Hc). by exists c.
  - intros (c & Hc & Hcols & Hkey). exists c. split; [|done].
    destruct r as [c' k]; simpl in *. by subst.
Qed.

(** C1, as stated, fails: the key of a loaded record is not the plain
    concatenation of its region, gene and transcript with any fourth
    column (the script puts an underscore between the parts), and two
    loaded records that agree on every column except [Area] still get
    different keys (the fourth part of the key is the [Area] column). *)
Lemma load_output_key_not_plain_concatenation :
  (keyed row_upstream "chr1_100_200_G1_T1_UPSTREAM"
     ∈ load_output [row_upstream; row_intron]
   ∧ ∀ name : column,
       _key (keyed row_upstream "chr1_100_200_G1_T1_UPSTREAM")
       ≠ Region row_upstream +:+ Gene row_upstream
           +:+ Transcript row_upstream +:+ getcol name row_upstream)
  ∧ (keyed row_intron "chr1_100_200_G1_T1_INTRON"
       ∈ load_output [row_upstream; row_intron]
     ∧ (∀ name : column, name ≠ cArea →
          getcol name row_upstream = getcol name row_intron)
     ∧ _key (keyed row_upstream "chr1_100_200_G1_T1_UPSTREAM")
       ≠ _key (keyed row_intron "chr1_100_200_G1_T1_INTRON")).
Proof.
  repeat split.
  - apply list_elem_of_here.
  - intros name. destruct name; vm_compute; discriminate.
  - apply list_elem_of_further, list_elem_of_here.
  - intros name Hname. by destruct name.
  - vm_compute; discriminate.
Qed.

(** C1, amended: the key of every record produced by [load_output] is its
    [Region], [Gene], [Transcript] and [Area] columns joined by
    underscores, so two loaded records (of the same or of different
    files) that agree on these four columns have the same key. *)
Theorem load_output_key_joined (t1 t2 : list Columns) (r1 r2 : Row) :
  r1 ∈ load_output t1 → r2 ∈ load_output t2 →
  _key r1 = Region (cols r1) +:+ "_" +:+ Gene (cols r1) +:+ "_"
            +:+ Transcript (cols r1) +:+ "_" +:+ Area (cols r1)
  ∧ (Region (cols r1) = Region (cols r2) → Gene (cols r1) = Gene (cols r2) →
     Transcript (cols r1) = Transcript (cols r2) →
     Area (cols r1) = Area (cols r2) → _key r1 = _key r2).
Proof.
  intros (c1 & _ & <- & K1)%load_output_elem (c2 & _ & <- & K2)%load_output_elem.
  split; [exact K1|].
  intros HR HG HT HA. rewrite K1, K2. unfold joined_key.
  by rewrite HR, HG, HT, HA.
Qed.

Lemma load_output_key_joined_witness :
  _key (keyed row_intron "chr1_100_200_G1_T1_INTRON")
    = "chr1_100_200_G1_T1_INTRON"
  ∧ (Region row_intron = Region row_intron → Gene row_intron = Gene row_intron →
     Transcript row_intron = Transcript row_intron →
     Area row_intron = Area row_intron →
     _key (keyed row_intron "chr1_100_200_G1_T1_INTRON")
     = _key (keyed row_intron "chr1_100_200_G1_T1_INTRON")).
Proof.
  apply (load_output_key_joined [row_intron] [row_upstream; row_intron]
           (keyed row_intron "chr1_100_200_G1_T1_INTRON")
           (keyed row_intron "chr1_100_200_G1_T1_INTRON")).
  - apply list_elem_of_here.
  - apply list_elem_of_further, list_elem_of_here.
Defined.

Lemma size_difference_intersection (X Y : gset string) :
  (size (X ∖ Y) + size (X ∩ Y))%nat = size X.
Proof.
  rewrite <- size_union.
  - f_equal. apply set_eq. intros x.
    rewrite elem_of_union, elem_of_difference, elem_of_intersection.
    destruct (decide (x ∈ Y)); tauto.
  - intros x. rewrite elem_of_difference, elem_of_intersection. tauto.
Qed.

(** The returned counts do not depend on the sampler: when [analyze_pair]
    returns, its dictionary is this one. *)
Lemma analyze_pair_summary hash df_rs df_py lbl s sampled :
  analyze_pair hash df_rs df_py lbl = Ok (s, sampled) →
  s = {| label := lbl;
         rust_total := len df_rs;
         python_total := len df_py;
         rust_only := Z.of_nat (size (list_to_set (C := gset string) (_key <$> df_rs)
                                      ∖ list_to_set (_key <$> df_py)));
         python_only := Z.of_nat (size (list_to_set (C := gset string) (_key <$> df_py)
                                        ∖ list_to_set (_key <$> df_rs)));
         common := Z.of_nat (size (list_to_set (C := gset string) (_key <$> df_rs)
                                   ∩ list_to_set (_key <$> df_py))) |}.
Proof.
  unfold analyze_pair. cbv zeta.
  match goal with |- context [mbind _ ?m] => destruct m as [x|e] end;
    simpl; [|discriminate].
  by intros [= <- _].
Qed.

(** [mapM] in the exception monad: it returns when every call returns. *)
Lemma mapM_Ok_Forall2 {A B} (f : A → result B) (l : list A) (ys : list B) :
  mapM f l = Ok ys ↔ Forall2 (fun x y => f x = Ok y) l ys.
Proof.
  revert ys. induction l as [|x l IH]; intros ys; simpl.
  - split; [intros [= <-]; constructor|by inversion 1].
  - destruct (f x) as [y|e] eqn:Hx; simpl;
      [|split; [discriminate|
                inversion 1 as [|? y' ? k' Hy Hk']; simpl in Hy; congruence]].
    destruct (mapM f l) as [k|e] eqn:Hk; simpl.
    + split.
      * intros [= <-]. constructor; [done|]. by apply IH.
      * inversion 1 as [|? y' ? k' Hy Hk']; simplify_eq/=.
        apply IH in Hk'. unfold mret, result_ret. congruence.
    + split; [discriminate|].
      inversion 1 as [|? y' ? k' Hy Hk']; simplify_eq/=.
      apply IH in Hk'. discriminate.
Qed.

Lemma mapM_total {A B} (f : A → result B) (l : list A) :
  (∀ x, x ∈ l → ∃ y, f x = Ok y) → ∃ ys, mapM f l = Ok ys.
Proof.
  induction l as [|x l IH]; intros Hf; simpl; [by eexists|].
  destruct (Hf x) as [y ->]; [apply list_elem_of_here|].
  destruct IH as [ys ->]; [|by eexists].
  intros x' Hx'. apply Hf. by apply list_elem_of_further.
Qed.

(** The groups of [groupby("Area")]: one per label that occurs, holding the
    rows with that label. *)
Lemma groupby_Area_elem (rows : list Row) (g : string * list Row) :
  g ∈ groupby_Area rows
  ↔ (∃ r, r ∈ rows ∧ Area (cols r) = g.1)
    ∧ g.2 = filter (fun r => Area (cols r) = g.1) rows.
Proof.
  unfold groupby_Area. rewrite list_elem_of_fmap.
  setoid_rewrite merge_sort_Permutation.
  setoid_rewrite elem_of_remove_dups.
  setoid_rewrite list_elem_of_fmap.
  split.
  - intros (a & -> & r & -> & Hr). simpl. eauto.
  - intros [(r & Hr & Ha) Hg]. exists g.1. split.
    + destruct g as [a rs]; simpl in *. by subst.
    + exists r. by rewrite <- Ha.
Qed.

(** The sampler raises only when the label of some row hashes to zero. *)
Lemma stratified_sample_total hash (n : Z) (rows : list Row) :
  (∀ r, r ∈ rows → hash (Area (cols r)) ≠ 0) →
  ∃ sample, stratified_sample hash n rows = Ok sample.
Proof.
  intros Hhash. unfold stratified_sample.
  edestruct (mapM_total (fun g : string * list Row =>
              q ← quota hash n g.1; mret (g.2, head q g.2))
              (groupby_Area rows)) as [picked ->]; [|by eexists].
  intros g [(r & Hr & Ha) _]%groupby_Area_elem.
  unfold quota. rewrite <- Ha.
  rewrite decide_False by by apply Hhash.
  by eexists.
Qed.

Lemma analyze_pair_total hash (df_rs df_py : list Row) lbl :
  (∀ r, r ∈ df_rs → hash (Area (cols r)) ≠ 0) →
  ∃ s sampled, analyze_pair hash df_rs df_py lbl = Ok (s, sampled).
Proof.
  intros Hhash. unfold analyze_pair. cbv zeta.
  set (rows := filter _ df_rs).
  destruct (0 <? Z.min 20 (len rows)); [|by eexists _, _].
  destruct (stratified_sample_total hash (Z.min 20 (len rows)) rows)
    as [sample ->]; [|by eexists _, _].
  intros r [_ Hr]%list_elem_of_filter. by apply Hhash.
Qed.

Lemma NoDup_fmap_filter {A B} (f : A → B) (P : A → Prop)
    `{∀ x, Decision (P x)} (l : list A) :
  NoDup (f <$> l) → NoDup (f <$> filter P l).
Proof.
  induction l as [|x l IH]; [done|].
  rewrite fmap_cons, NoDup_cons, filter_cons. intros [Hx Hl].
  destruct (decide (P x)); [|by apply IH].
  rewrite fmap_cons, NoDup_cons. split; [|by apply IH].
  intros (y & Hy & [_ Hin]%list_elem_of_filter)%list_elem_of_fmap.
  apply Hx. apply list_elem_of_fmap. eauto.
Qed.

(** The keys exclusive to one side are the keys of its rows whose key the
    other side lacks; the common keys are the keys of its other rows. *)
Lemma difference_as_rows (a b : list Row) :
  list_to_set (C := gset string) (_key <$> a) ∖ list_to_set (_key <$> b)
  = list_to_set (_key <$> rust_only_rows a b).
Proof.
  apply set_eq. intros k.
  rewrite elem_of_difference, !elem_of_list_to_set.
  unfold rust_only_rows. split.
  - intros [(r & -> & Hr)%list_elem_of_fmap Hn].
    apply list_elem_of_fmap. exists r. split; [done|].
    by apply list_elem_of_filter.
  - intros (r & -> & [Hn Hr]%list_elem_of_filter)%list_elem_of_fmap.
    split; [|done]. apply list_elem_of_fmap. eauto.
Qed.

Lemma intersection_as_rows (a b : list Row) :
  list_to_set (C := gset string) (_key <$> a) ∩ list_to_set (_key <$> b)
  = list_to_set (_key <$> common_rows a b).
Proof.
  apply set_eq. intros k.
  rewrite elem_of_intersection, !elem_of_list_to_set.
  unfold common_rows. split.
  - intros [(r & -> & Hr)%list_elem_of_fmap Hin].
    apply list_elem_of_fmap. exists r. split; [done|].
    by apply list_elem_of_filter.
  - intros (r & -> & [Hin Hr]%list_elem_of_filter)%list_elem_of_fmap.
    split; [|done]. apply list_elem_of_fmap. eauto.
Qed.

Lemma size_exclusive_rows (a b : list Row) :
  NoDup (_key <$> a) →
  size (list_to_set (C := gset string) (_key <$> a) ∖ list_to_set (_key <$> b))
  = length (rust_only_rows a b).
Proof.
  intros Ha. rewrite difference_as_rows, size_list_to_set.
  - apply length_fmap.
  - by apply NoDup_fmap_filter.
Qed.

Lemma size_common_rows (a b : list Row) :
  NoDup (_key <$> a) →
  size (list_to_set (C := gset string) (_key <$> a) ∩ list_to_set (_key <$> b))
  = length (common_rows a b).
Proof.
  intros Ha. rewrite intersection_as_rows, size_list_to_set.
  - apply length_fmap.
  - by apply NoDup_fmap_filter.
Qed.

(** C3: the dictionary that [analyze_pair] returns holds the number of
    rows of each side as its totals, the sizes of the two differences of
    the key sets as its exclusive counts and the size of their intersection
    as its common count.  When the keys are unique within each side, these
    are the number of rows of each side whose key the other side lacks, and
    the number of rows of either side whose key the other side has; so the
    exclusive and the common counts add up to the size of each side, and
    the common count is the same from either side.  [analyze_pair] does
    return, unless an area label hashes to zero. *)
Theorem analyze_pair_counts hash (df_rs df_py : list Row) lbl :
  NoDup (_key <$> df_rs) → NoDup (_key <$> df_py) →
  (∀ s sampled,
     analyze_pair hash df_rs df_py lbl = Ok (s, sampled) →
     rust_total s = len df_rs
     ∧ python_total s = len df_py
     ∧ rust_only s = Z.of_nat (size (list_to_set (C := gset string) (_key <$> df_rs)
                                     ∖ list_to_set (_key <$> df_py)))
     ∧ python_only s = Z.of_nat (size (list_to_set (C := gset string) (_key <$> df_py)
                                       ∖ list_to_set (_key <$> df_rs)))
     ∧ common s = Z.of_nat (size (list_to_set (C := gset string) (_key <$> df_rs)
                                  ∩ list_to_set (_key <$> df_py)))
     ∧ rust_only s = len (rust_only_rows df_rs df_py)
     ∧ python_only s = len (rust_only_rows df_py df_rs)
     ∧ common s = len (common_rows df_rs df_py)
     ∧ common s = len (common_rows df_py df_rs)
     ∧ rust_only s + common s = len df_rs
     ∧ python_only s + common s = len df_py
     ∧ rust_only s + common s = rust_total s
     ∧ python_only s + common s = python_total s
     ∧ common s = Z.of_nat (size (list_to_set (C := gset string) (_key <$> df_py)
                                  ∩ list_to_set (_key <$> df_rs))))
  ∧ ((∀ r, r ∈ df_rs → hash (Area (cols r)) ≠ 0) →
     ∃ s sampled, analyze_pair hash df_rs df_py lbl = Ok (s, sampled)).
Proof.
  intros Hrs Hpy. split; [|apply analyze_pair_total].
  intros s sampled ->%analyze_pair_summary. simpl.
  pose proof (size_exclusive_rows df_rs df_py Hrs) as Hx1.
  pose proof (size_exclusive_rows df_py df_rs Hpy) as Hx2.
  pose proof (size_common_rows df_rs df_py Hrs) as Hc1.
  pose proof (size_common_rows df_py df_rs Hpy) as Hc2.
  pose proof (size_difference_intersection
                (list_to_set (_key <$> df_rs)) (list_to_set (_key <$> df_py)))
    as Hs1.
  pose proof (size_difference_intersection
                (list_to_set (_key <$> df_py)) (list_to_set (_key <$> df_rs)))
    as Hs2.
  rewrite (size_list_to_set (C := gset string) _ Hrs), length_fmap in Hs1.
  rewrite (size_list_to_set (C := gset string) _ Hpy), length_fmap in Hs2.
  assert (Hcomm :
    list_to_set (C := gset string) (_key <$> df_rs)
      ∩ list_to_set (_key <$> df_py)
    = list_to_set (_key <$> df_py) ∩ list_to_set (_key <$> df_rs))
    by apply (comm_L (∩)).
  rewrite Hcomm in *. unfold len.
  repeat split; lia.
Qed.

Lemma analyze_pair_counts_witness :
  (∀ s sampled,
     analyze_pair hash_seed16 small_rs small_py "main" = Ok (s, sampled) →
     rust_total s = len small_rs
     ∧ python_total s = len small_py
     ∧ rust_only s = Z.of_nat (size (list_to_set (C := gset string) (_key <$> small_rs)
                                     ∖ list_to_set (_key <$> small_py)))
     ∧ python_only s = Z.of_nat (size (list_to_set (C := gset string) (_key <$> small_py)
                                       ∖ list_to_set (_key <$> small_rs)))
     ∧ common s = Z.of_nat (size (list_to_set (C := gset string) (_key <$> small_rs)
                                  ∩ list_to_set (_key <$> small_py)))
     ∧ rust_only s = len (rust_only_rows small_rs small_py)
     ∧ python_only s = len (rust_only_rows small_py small_rs)
     ∧ common s = len (common_rows small_rs small_py)
     ∧ common s = len (common_rows small_py small_rs)
     ∧ rust_only s + common s = len small_rs
     ∧ python_only s + common s = len small_py
     ∧ rust_only s + common s = rust_total s
     ∧ python_only s + common s = python_total s
     ∧ common s = Z.of_nat (size (list_to_set (C := gset string) (_key <$> small_py)
                                  ∩ list_to_set (_key <$> small_rs))))
  ∧ ((∀ r, r ∈ small_rs → hash_seed16 (Area (cols r)) ≠ 0) →
     ∃ s sampled,
       analyze_pair hash_seed16 small_rs small_py "main" = Ok (s, sampled)).
Proof.
  apply (analyze_pair_counts hash_seed16 small_rs small_py "main");
    by_computation.
Defined.

Example analyze_pair_small :
  analyze_pair hash_seed16 small_rs small_py "main"
  = Ok (Build_Summary "main" 2 1 1 0 1,
        Some [keyed row_upstream "chr1_100_200_G1_T1_UPSTREAM"]).
Proof. vm_compute. reflexivity. Qed.

(** The sample never has more than [sample_size] rows. *)
Lemma stratified_sample_length hash (n : Z) (rows sample : list Row) :
  0 ≤ n → stratified_sample hash n rows = Ok sample → len sample ≤ n.
Proof.
  intros Hn. unfold stratified_sample.
  destruct (mapM _ _) as [picked|e]; simpl; [|discriminate].
  intros [= <-]. unfold head, len.
  destruct (Z.leb_spec 0 n); [|lia].
  rewrite length_take. lia.
Qed.

Lemma analyze_pair_sample_bound hash df_rs df_py lbl s sample :
  analyze_pair hash df_rs df_py lbl = Ok (s, Some sample) →
  len sample ≤ 20 ∧ len sample ≤ rust_total s.
Proof.
  intros H. pose proof (analyze_pair_summary _ _ _ _ _ _ H) as ->.
  revert H. unfold analyze_pair. cbv zeta.
  set (rows := filter _ df_rs).
  destruct (Z.ltb_spec 0 (Z.min 20 (len rows))) as [Hpos|Hneg];
    simpl; [|discriminate].
  destruct (stratified_sample _ _ _) as [x|e] eqn:Hs; simpl; [|discriminate].
  intros [= <-].
  apply stratified_sample_length in Hs; [|lia].
  assert (len rows ≤ len df_rs).
  { unfold len, rows. pose proof (length_filter (fun r => _key r ∈
      (list_to_set (C := gset string) (_key <$> df_rs)
       ∖ list_to_set (_key <$> df_py))) df_rs). lia. }
  simpl. lia.
Qed.

Lemma length_head_le {A} (q : Z) (l : list A) :
  (length (head q l) ≤ length l)%nat.
Proof. unfold head. destruct (0 <=? q); rewrite length_take; lia. Qed.

Lemma head_first {A} (q : Z) (x : A) (l : list A) :
  1 ≤ q → x ∈ head q (x :: l).
Proof.
  intros Hq. unfold head. destruct (Z.leb_spec 0 q); [|lia].
  destruct (Z.to_nat q) as [|k] eqn:Hk; [lia|]. apply list_elem_of_here.
Qed.

Lemma quota_at_least_one hash (n : Z) (name : string) (q : Z) :
  quota hash n name = Ok q → 1 ≤ q.
Proof. unfold quota. case_decide; [discriminate|]. intros [= <-]. lia. Qed.

Lemma elem_of_concat_intro {A} (x : A) (l : list A) (ls : list (list A)) :
  x ∈ l → l ∈ ls → x ∈ concat ls.
Proof.
  intros Hx Hl. induction Hl as [|l' ls Hl IH]; simpl;
    apply elem_of_app; auto.
Qed.

Lemma length_filter_split {A} (P : A → Prop) `{∀ x, Decision (P x)}
    (l : list A) :
  (length (filter P l) + length (filter (fun x => ¬ P x) l))%nat = length l.
Proof.
  induction l as [|x l IH]; [done|].
  rewrite !filter_cons. destruct (decide (P x)).
  - rewrite decide_False by tauto. simpl. lia.
  - rewrite decide_True by done. simpl. lia.
Qed.

(** Groups of distinct labels are disjoint: together they have no more rows
    than the frame. *)
Lemma groups_length (labels : list string) :
  NoDup labels → ∀ rows : list Row,
  (length (concat ((fun a => filter (fun r => Area (cols r) = a) rows)
                     <$> labels)) ≤ length rows)%nat.
Proof.
  induction 1 as [|a labels Ha _ IH]; intros rows; simpl; [lia|].
  rewrite length_app.
  rewrite <- (length_filter_split (fun r => Area (cols r) = a) rows).
  apply Nat.add_le_mono_l.
  etrans; [|apply (IH (filter (fun r => Area (cols r) ≠ a) rows))].
  apply Nat.eq_le_incl. do 2 f_equal.
  apply list_fmap_ext. intros _ b Hb%list_elem_of_lookup_2.
  rewrite list_filter_filter. apply list_filter_iff.
  intros r. split; [intros ->; split; [done|congruence]|tauto].
Qed.

(** When nothing has to be cut, that is, when there are no more rows than
    [sample_size], every area category of the frame is in the sample. *)
Lemma stratified_sample_covers hash (n : Z) (rows sample : list Row) :
  len rows ≤ n → stratified_sample hash n rows = Ok sample →
  ∀ r, r ∈ rows → ∃ r', r' ∈ sample ∧ Area (cols r') = Area (cols r).
Proof.
  intros Hn. unfold stratified_sample.
  destruct (mapM _ _) as [picked|e] eqn:Hp; simpl; [|discriminate].
  apply mapM_Ok_Forall2 in Hp. intros [= <-] r Hr.
  assert (Hhead : ∀ l : list Row,
            (length l ≤ length rows)%nat → head n l = l).
  { intros l Hl. unfold head, len in *.
    destruct (Z.leb_spec 0 n); [|lia]. apply take_ge. lia. }
  case_decide as Hwhole.
  { rewrite Hhead by done. eauto. }
  rewrite Hhead.
  - (* the group of [r] contributes its first row *)
    set (a := Area (cols r)).
    set (g := (a, filter (fun r' => Area (cols r') = a) rows)).
    assert (Hg : g ∈ groupby_Area rows) by (apply groupby_Area_elem; eauto).
    apply list_elem_of_lookup in Hg as (k & Hk).
    destruct (Forall2_lookup_l _ _ _ _ _ Hp Hk) as (p & Hpk & Hf).
    simpl in Hf.
    destruct (quota hash n a) as [q|] eqn:Hq; simpl in Hf; [|discriminate].
    injection Hf as <-.
    apply quota_at_least_one in Hq.
    assert (Hin : r ∈ filter (fun r' => Area (cols r') = a) rows)
      by (by apply list_elem_of_filter).
    destruct (filter (fun r' => Area (cols r') = a) rows) as [|r0 rest] eqn:Hgrp;
      [by apply not_elem_of_nil in Hin|].
    exists r0. split.
    + eapply elem_of_concat_intro; [by apply head_first|].
      apply list_elem_of_fmap. eexists (_, _). split; [reflexivity|].
      by eapply list_elem_of_lookup_2.
    + assert (Hr0 : r0 ∈ filter (fun r' => Area (cols r') = a) rows)
        by (rewrite Hgrp; apply list_elem_of_here).
      by apply list_elem_of_filter in Hr0 as [? _].
  - (* the groups are cut, never extended *)
    etrans; [|apply (groups_length
                      (merge_sort String.le (remove_dups (Area ∘ cols <$> rows))))].
    + clear -Hp. unfold groupby_Area in Hp.
      rewrite Forall2_fmap_l in Hp. simpl in Hp.
      induction Hp as [|a p labels picked Ha _ IH]; simpl; [lia|].
      simpl in Ha.
      destruct (quota hash n a) as [q|]; simpl in Ha; [|discriminate].
      injection Ha as <-. simpl. rewrite !length_app.
      apply Nat.add_le_mono; [apply length_head_le|exact IH].
    + rewrite merge_sort_Permutation. apply NoDup_remove_dups.
Qed.

(** In [analyze_pair]: with at most twenty Rust-only rows, every area
    category of these rows is in the exported sample. *)
Lemma analyze_pair_sample_covers hash df_rs df_py lbl s sample :
  analyze_pair hash df_rs df_py lbl = Ok (s, Some sample) →
  len (filter (fun r => _key r ∈ list_to_set (C := gset string) (_key <$> df_rs)
                                 ∖ list_to_set (_key <$> df_py)) df_rs) ≤ 20 →
  ∀ r, r ∈ df_rs → _key r ∉ (_key <$> df_py) →
       ∃ r', r' ∈ sample ∧ Area (cols r') = Area (cols r).
Proof.
  unfold analyze_pair. cbv zeta.
  set (rows := filter _ df_rs).
  destruct (0 <? Z.min 20 (len rows)); simpl; [|discriminate].
  destruct (stratified_sample _ _ _) as [x|e] eqn:Hs; simpl; [|discriminate].
  intros [= _ <-] Hlen r Hr Hkey.
  assert (Hle : len rows ≤ Z.min 20 (len rows)) by lia.
  apply (stratified_sample_covers _ _ _ _ Hle Hs).
  apply list_elem_of_filter. split; [|done].
  apply elem_of_difference. rewrite !elem_of_list_to_set. split; [|done].
  apply list_elem_of_fmap. eauto.
Qed.

(** C4 fails on the code.  Twenty-two Rust-only rows in five area
    categories, whose labels all hash to negative numbers: every group
    gets the quota [20 // h % 5 + 1 = 5], the four groups that come first
    in label order fill the twenty places, and the final [head(20)] cuts
    the only [UPSTREAM] row off, although [20 ≥ 5]. *)
Theorem stratified_sample_drops_category :
  ∃ s sample,
    analyze_pair hash_seed16 (load_output five_areas) [] "main"
      = Ok (s, Some sample)
    ∧ rust_only s = 22
    ∧ len sample = 20
    ∧ remove_dups (Area ∘ cols <$> load_output five_areas)
      = ["UPSTREAM"; "DOWNSTREAM"; "GENE_BODY"; "INTRON"; "PROMOTER"]
    ∧ Area ∘ cols <$> sample
      = replicate 5 "DOWNSTREAM" ++ replicate 5 "GENE_BODY"
          ++ replicate 5 "INTRON" ++ replicate 5 "PROMOTER"
    ∧ "UPSTREAM" ∉ (Area ∘ cols <$> sample).
Proof.
  eexists _, _. split; [vm_compute; reflexivity|].
  repeat split; try (vm_compute; reflexivity).
  by_computation.
Qed.

End CompareOutputsSpec.

(** ** Properties of [verify_matches.py] *)

Module VerifyMatchesSpec.
Import VerifyMatches Inputs Reading PyFacts.

(** C2: the directional verifier.  The computed distance is the distance
    from the midpoint to the nearest gene boundary (the cases are tried in
    order, which only matters for a span with start after end), [valid]
    compares the reported distance with the threshold (10000 by default),
    and [distance_matches] is the tolerance check; the worked example
    follows. *)
Theorem verify_upstream_downstream_spec (region : Region)
    (gene_start gene_end reported_distance config_distance : Z) :
  let r := verify_upstream_downstream region gene_start gene_end
             reported_distance config_distance in
  (midpoint region < gene_start →
     UpDown.calculated_distance r = gene_start - midpoint region)
  ∧ (gene_start ≤ midpoint region → midpoint region > gene_end →
     UpDown.calculated_distance r = midpoint region - gene_end)
  ∧ (gene_start ≤ gene_end → midpoint region > gene_end →
     UpDown.calculated_distance r = midpoint region - gene_end)
  ∧ (gene_start ≤ midpoint region → midpoint region ≤ gene_end →
     UpDown.calculated_distance r = 0)
  ∧ (UpDown.valid r = true ↔ reported_distance ≤ config_distance)
  ∧ (UpDown.distance_matches r = true
     ↔ Z.abs (UpDown.calculated_distance r - reported_distance) ≤ 10)
  ∧ UpDown.reported_distance r = reported_distance
  ∧ config_distance_default = 10000
  ∧ verify_upstream_downstream (region_of 400 600) 1000 2000 500
      config_distance_default
    = {| UpDown.valid := true; UpDown.reported_distance := 500;
         UpDown.calculated_distance := 500;
         UpDown.distance_matches := true;
         UpDown.within_threshold := true |}
  ∧ midpoint (region_of 400 600) = 500.
Proof.
  unfold verify_upstream_downstream; simpl.
  rewrite !Z.leb_le.
  destruct (Z.ltb_spec (midpoint region) gene_start);
    destruct (Z.gtb_spec (midpoint region) gene_end);
    repeat split; intros; try lia; done.
Qed.

(** C5: the overlap verifier is valid exactly when the region starts
    before the gene ends and ends after the gene starts. *)
Theorem verify_overlap_spec (region : Region) (gene_start gene_end : Z) :
  (Overlap.valid (verify_overlap region gene_start gene_end) = true
     ↔ start region < gene_end ∧ end_ region > gene_start)
  ∧ Overlap.overlaps_gene (verify_overlap region gene_start gene_end)
    = Overlap.valid (verify_overlap region gene_start gene_end)
  ∧ Overlap.valid (verify_overlap (region_of 1500 1600) 1000 2000) = true
  ∧ Overlap.valid (verify_overlap (region_of 2100 2200) 1000 2000) = false.
Proof.
  unfold verify_overlap; simpl. split; [|done].
  rewrite andb_true_iff, Z.ltb_lt, Z.gtb_lt. lia.
Qed.

(** C6: an identifier [chrom_start_end] whose last two fields hold no
    underscore and read as integers is cut at its last two underscores,
    whatever underscores the chromosome has, and the midpoint is the
    floor of the mean of start and end. *)
Theorem parse_region_splits_from_right (chr a b : string) (s e : Z) :
  mem_char "_" a = false → mem_char "_" b = false →
  int a = Ok s → int b = Ok e →
  parse_region (chr +:+ "_" +:+ a +:+ "_" +:+ b)
    = Ok {| chrom := chr; start := s; end_ := e; midpoint := (s + e) / 2 |}
  ∧ 2 * ((s + e) / 2) ≤ s + e < 2 * ((s + e) / 2) + 2.
Proof.
  intros Ha Hb Hs He. split.
  - unfold parse_region.
    change ("_" +:+ a +:+ "_" +:+ b) with (String "_" (a +:+ String "_" b)).
    rewrite (rsplit_two _ _ _ _ Ha Hb). simpl.
    rewrite Hs; simpl. rewrite He; simpl. reflexivity.
  - pose proof (Z.mul_div_le (s + e) 2).
    pose proof (Z.mul_succ_div_gt (s + e) 2). lia.
Qed.

Lemma parse_region_splits_from_right_witness :
  parse_region "chr_Un_gl000220_-7_108"
    = Ok {| chrom := "chr_Un_gl000220"; start := -7; end_ := 108;
            midpoint := 50 |}
  ∧ 2 * 50 ≤ -7 + 108 < 2 * 50 + 2.
Proof.
  apply (parse_region_splits_from_right "chr_Un_gl000220" "-7" "108" (-7) 108);
    reflexivity.
Defined.

Lemma record_coords_found (line : string) : record_coords line ≠ Ok None.
Proof.
  unfold record_coords.
  destruct (getitem (fields_of line) 3 ≫= int) as [gs|e1]; simpl; [|done].
  destruct (getitem (fields_of line) 4 ≫= int) as [ge|e2]; simpl; [|done].
  destruct (getitem (fields_of line) 6) as [st|e3]; simpl; done.
Qed.

(** One turn of the loop of [get_gene_coords]. *)
Lemma get_gene_coords_cons (line : string) (rest : list string) gene_id :
  get_gene_coords (line :: rest) gene_id
  = if is_gene_record_for gene_id line then record_coords line
    else get_gene_coords rest gene_id.
Proof.
  simpl. unfold is_gene_record_for, is_record, record_coords, feature_type.
  fold (fields_of line).
  destruct (contains gene_id line); simpl;
    [|by rewrite !andb_false_r].
  rewrite andb_true_r.
  destruct (startswith line "#"); simpl; [done|].
  unfold len.
  destruct (Z.ltb_spec (Z.of_nat (length (fields_of line))) 9) as [Hlt|Hge].
  - destruct (Z.leb_spec 9 (Z.of_nat (length (fields_of line)))); [lia|done].
  - destruct (Z.leb_spec 9 (Z.of_nat (length (fields_of line)))); [|lia].
    destruct (fields_of line !! 2%nat) as [feature|] eqn:Hf;
      [|apply lookup_ge_None in Hf; lia].
    assert (getitem (fields_of line) 2 = Ok feature) as ->.
    { unfold getitem. by rewrite Hf. }
    simpl.
    destruct (decide (feature = "gene")) as [->|Hne].
    + by rewrite bool_decide_eq_true_2.
    + by rewrite bool_decide_eq_false_2.
Qed.

(** C7: the lookup returns the coordinates of the first gene record whose
    raw line contains the identifier, and not-found when the source has no
    such record; later records are never read. *)
Theorem get_gene_coords_first_match (gtf : list string) (gene_id : string) :
  get_gene_coords gtf gene_id = lookup_gene gtf gene_id.
Proof.
  unfold lookup_gene. induction gtf as [|line rest IH]; [reflexivity|].
  rewrite get_gene_coords_cons. simpl find.
  by destruct (is_gene_record_for gene_id line).
Qed.

(** The same, unfolded: lines before the first match, and all lines after
    it, do not matter. *)
Lemma get_gene_coords_decomposed (pre post : list string) (line gene_id : string) :
  Forall (fun l => is_gene_record_for gene_id l = false) pre →
  is_gene_record_for gene_id line = true →
  get_gene_coords (pre ++ line :: post) gene_id = record_coords line.
Proof.
  intros Hpre Hline. induction Hpre as [|l pre Hl _ IH]; simpl app.
  - by rewrite get_gene_coords_cons, Hline.
  - by rewrite get_gene_coords_cons, Hl.
Qed.

(** Not found means: no gene record for the identifier in the source. *)
Lemma get_gene_coords_not_found (gtf : list string) (gene_id : string) :
  get_gene_coords gtf gene_id = Ok None
  ↔ Forall (fun l => is_gene_record_for gene_id l = false) gtf.
Proof.
  induction gtf as [|line rest IH].
  - split; [constructor|reflexivity].
  - rewrite get_gene_coords_cons, Forall_cons.
    destruct (is_gene_record_for gene_id line) eqn:Hm.
    + split; [intros H; by apply record_coords_found in H|by intros [? _]].
    + rewrite IH. tauto.
Qed.

(** C10: the strand that the lookup returns reaches the printed "Gene:"
    line only; the result dictionary of either verifier, the verdict and
    the count of valid samples are the same for any two strands. *)
Theorem strand_is_not_used (i : nat) (region_str gene_id area : string)
    (distance : Z) (region : Region) (gene_start gene_end : Z)
    (strand strand' : string) (valid_count : Z) :
  (report_sample i region_str gene_id area distance region
     (Some (gene_start, gene_end, strand)) valid_count).1
  = (report_sample i region_str gene_id area distance region
       (Some (gene_start, gene_end, strand')) valid_count).1
  ∧ without_strand <$>
      (report_sample i region_str gene_id area distance region
         (Some (gene_start, gene_end, strand)) valid_count).2
    = without_strand <$>
        (report_sample i region_str gene_id area distance region
           (Some (gene_start, gene_end, strand')) valid_count).2
  ∧ verdict_of <$>
      (report_sample i region_str gene_id area distance region
         (Some (gene_start, gene_end, strand)) valid_count).2
    = verdict_of <$>
        (report_sample i region_str gene_id area distance region
           (Some (gene_start, gene_end, strand')) valid_count).2.
Proof. by unfold report_sample. Qed.

Lemma valid_tally_app (a b : list printed) :
  valid_tally (a ++ b) = (valid_tally a + valid_tally b)%nat.
Proof. unfold valid_tally. by rewrite filter_app, length_app. Qed.

(** Lines without a verdict count in neither tally. *)
Lemma no_verdict_no_tally (xs : list printed) :
  Forall (fun l => verdict_of l = None) xs →
  valid_tally xs = 0%nat ∧ invalid_tally xs = 0%nat.
Proof.
  induction 1 as [|l xs Hl _ [IHv IHi]]; [done|].
  unfold valid_tally, invalid_tally in *.
  rewrite !filter_cons, !decide_False by (rewrite Hl; discriminate).
  done.
Qed.

Lemma getitem_Ok {A} (xs : list A) (i : nat) (x : A) :
  getitem xs i = Ok x ↔ xs !! i = Some x.
Proof. unfold getitem. destruct (xs !! i); split; congruence. Qed.

(** What [report_sample] prints and counts. *)
Lemma report_sample_line i region_str gene_id area distance region coords
    valid_count :
  ∃ l, (report_sample i region_str gene_id area distance region coords
          valid_count)
       = (valid_count + Z.of_nat (valid_tally [l]), [l])
     ∧ sample_number l = Some (S i)
     ∧ (coords = None → l = SampleNotFound (S i) region_str gene_id).
Proof.
  unfold report_sample. destruct coords as [[[gs ge] strand]|].
  - set (res := if bool_decide _ then _ else _).
    exists (SampleReport (S i) region_str gene_id gs ge strand area distance
              res (if result_valid res then "VALID" else "INVALID")).
    split; [|split; [reflexivity|discriminate]].
    unfold valid_tally. rewrite filter_cons, filter_nil. simpl verdict_of.
    destruct (result_valid res); case_decide; try done; simpl; f_equal; lia.
  - exists (SampleNotFound (S i) region_str gene_id).
    split; [|split; reflexivity].
    unfold valid_tally; simpl. f_equal. lia.
Qed.

(** The loop body prints exactly one line about its row. *)
Lemma verify_sample_line gtf i row valid_count valid_count' out :
  verify_sample gtf i row valid_count = Ok (valid_count', out) →
  ∃ l, out = [l]
     ∧ sample_number l = Some (S i)
     ∧ valid_count' = valid_count + Z.of_nat (valid_tally [l])
     ∧ (∀ gene_id, row !! 2%nat = Some gene_id →
          get_gene_coords gtf gene_id = Ok None →
          ∃ region_str, l = SampleNotFound (S i) region_str gene_id).
Proof.
  unfold verify_sample.
  destruct (getitem row 0) as [region_str|] eqn:H0; simpl; [|discriminate].
  destruct (getitem row 2) as [gene_id|] eqn:H2; simpl; [|discriminate].
  destruct (getitem row 5) as [area|] eqn:H5; simpl; [|discriminate].
  destruct (getitem row 6 ≫= _) as [distance|] eqn:H6; simpl; [|discriminate].
  destruct (parse_region region_str) as [region|] eqn:Hr; simpl; [|discriminate].
  destruct (get_gene_coords gtf gene_id) as [coords|] eqn:Hc; simpl;
    [|discriminate].
  destruct (report_sample_line i region_str gene_id area distance region
              coords valid_count) as (l & Hl & Hn & Hnf).
  rewrite Hl. intros [= <- <-]. exists l. repeat split; [done|].
  intros gid Hgid Hnone. apply getitem_Ok in H2.
  assert (gid = gene_id) as -> by congruence.
  exists region_str. apply Hnf. congruence.
Qed.

(** The loop prints one line per row, in order, numbered from [i + 1];
    [valid_count] grows by the number of VALID verdicts printed. *)
Lemma verify_loop_lines gtf rows :
  ∀ i valid_count valid_count' out,
    verify_loop gtf i rows valid_count = Ok (valid_count', out) →
    valid_count' = valid_count + Z.of_nat (valid_tally out)
    ∧ (∀ j l, out !! j = Some l → sample_number l = Some (S (i + j)))
    ∧ (∀ j row gene_id, rows !! j = Some row → row !! 2%nat = Some gene_id →
         get_gene_coords gtf gene_id = Ok None →
         ∃ region_str,
           out !! j = Some (SampleNotFound (S (i + j)) region_str gene_id)).
Proof.
  induction rows as [|row rest IH]; intros i vc vc' out; simpl.
  - intros [= <- <-]. repeat split.
    + unfold valid_tally; simpl; lia.
    + intros j l Hl. by rewrite lookup_nil in Hl.
    + intros j r g Hr. by rewrite lookup_nil in Hr.
  - destruct (verify_sample gtf i row vc) as [[vc1 out1]|] eqn:Hs; simpl;
      [|discriminate].
    destruct (verify_loop gtf (S i) rest vc1) as [[vc2 out2]|] eqn:Hl; simpl;
      [|discriminate].
    intros [= <- <-].
    apply verify_sample_line in Hs as (l & -> & Hn & -> & Hnf).
    apply IH in Hl as (-> & Hnum & Hrest).
    repeat split.
    + rewrite valid_tally_app. lia.
    + intros [|j] l'; simpl.
      * intros [= <-]. by rewrite Nat.add_0_r.
      * intros Hj. rewrite (Hnum j l' Hj). do 2 f_equal. lia.
    + intros [|j] r g; simpl.
      * intros [= <-] Hg Hnone. rewrite Nat.add_0_r.
        destruct (Hnf g Hg Hnone) as (rs & ->). eauto.
      * intros Hr Hg Hnone.
        destruct (Hrest j r g Hr Hg Hnone) as (rs & Hrs).
        exists rs. rewrite Hrs. do 3 f_equal. lia.
Qed.

(** The shape of what [main] prints. *)
Lemma main_output gtf samples_file out :
  main gtf samples_file = Ok out →
  ∃ valid_count body,
    verify_loop gtf 0 (take 10 (read_samples samples_file)) 0
      = Ok (valid_count, body)
    ∧ out = Verifying (len (read_samples samples_file)) :: body
              ++ [SummaryValid valid_count;
                  Conclusion (conclude valid_count)]
    ∧ valid_count = Z.of_nat (valid_tally out).
Proof.
  unfold main. cbv zeta.
  destruct (verify_loop _ _ _ _) as [[vc body]|] eqn:Hl; simpl; [|discriminate].
  intros [= <-]. exists vc, body. repeat split.
  apply verify_loop_lines in Hl as (-> & _).
  change (Verifying ?n :: ?b ++ ?t) with ([Verifying n] ++ b ++ t).
  rewrite !valid_tally_app. unfold valid_tally at 2 4. simpl. lia.
Qed.

(** The closing message is decided by comparing the number of VALID
    verdicts with the constants 10 and 0. *)
Lemma main_conclusion gtf samples_file out :
  main gtf samples_file = Ok out →
  last out = Some (Conclusion (conclude (Z.of_nat (valid_tally out)))).
Proof.
  intros (vc & body & _ & -> & Hvc)%main_output.
  rewrite <- Hvc. by rewrite app_comm_cons, last_app.
Qed.

(** When ten verdicts were printed, the closing message is the exact
    trichotomy: all valid, none valid, or mixed. *)
Lemma conclusion_exact_when_ten_judged gtf samples_file out :
  main gtf samples_file = Ok out →
  (valid_tally out + invalid_tally out = 10)%nat →
  last out = Some (Conclusion
                     (if decide (invalid_tally out = 0%nat) then AllValid
                      else if decide (valid_tally out = 0%nat) then AllInvalid
                      else Mixed (Z.of_nat (valid_tally out)))).
Proof.
  intros Hmain Hten. rewrite (main_conclusion _ _ _ Hmain).
  unfold conclude. repeat case_decide; try done; lia.
Qed.

(** C8 fails on the code.  With a single sampled row, which is valid, the
    conclusion is the mixed one ("1/10 valid"); with a single sampled row
    whose gene is not found, so that no row was judged at all, it is
    "All samples INVALID". *)
Theorem conclusion_compares_with_ten :
  main gtf_G1 one_valid_sample
    = Ok [Verifying 1;
          SampleReport 1 "chr1_1500_1600" "G1" 1000 2000 "+" "INTRON" 0
            (OfOverlap {| Overlap.valid := true;
                          Overlap.overlaps_gene := true |}) "VALID";
          SummaryValid 1; Conclusion (Mixed 1)]
  ∧ main gtf_G1 one_missing_gene
    = Ok [Verifying 1; SampleNotFound 1 "chr1_1500_1600" "G7";
          SummaryValid 0; Conclusion AllInvalid].
Proof. split; vm_compute; reflexivity. Qed.



(** The same in a whole run of [main], which verifies the first ten rows of
    the sample file: the row gets its "GENE NOT FOUND" line, no line about it
    carries a verdict, and the printed count of valid samples is the number
    of VALID verdicts. *)
Lemma main_reports_gene_not_found (gtf samples_file : list string)
    (out : list printed) (i : nat) (row : list string) (gene_id : string) :
  main gtf samples_file = Ok out →
  (i < 10)%nat →
  read_samples samples_file !! i = Some row →
  row !! 2%nat = Some gene_id →
  Forall (fun l => is_gene_record_for gene_id l = false) gtf →
  (∃ region_str, SampleNotFound (S i) region_str gene_id ∈ out)
  ∧ (∀ l, l ∈ out → sample_number l = Some (S i) → verdict_of l = None)
  ∧ valid_tally (filter (fun l => sample_number l = Some (S i)) out) = 0%nat
  ∧ invalid_tally (filter (fun l => sample_number l = Some (S i)) out) = 0%nat
  ∧ SummaryValid (Z.of_nat (valid_tally out)) ∈ out.
Proof.
  intros Hmain Hi Hrow Hgene Habsent.
  apply get_gene_coords_not_found in Habsent.
  apply main_output in Hmain as (vc & body & Hloop & -> & Hvc).
  rewrite <- Hvc. clear Hvc.
  apply verify_loop_lines in Hloop as (_ & Hnum & Hnf).
  assert (Htake : take 10 (read_samples samples_file) !! i = Some row)
    by (by rewrite lookup_take_lt).
  destruct (Hnf i row gene_id Htake Hgene Habsent) as (region_str & Hline).
  simpl in Hline.
  assert (Hverdict : ∀ l,
    l ∈ Verifying (len (read_samples samples_file)) :: body
          ++ [SummaryValid vc; Conclusion (conclude vc)] →
    sample_number l = Some (S i) → verdict_of l = None).
  { intros l Hl Hn.
    apply elem_of_cons in Hl as [->|Hl]; [done|].
    apply elem_of_app in Hl as [Hl|Hl].
    - apply list_elem_of_lookup in Hl as (j & Hj).
      pose proof (Hnum j l Hj) as Hn'. simpl in Hn'.
      assert (j = i) as -> by congruence.
      assert (l = SampleNotFound (S i) region_str gene_id) as -> by congruence.
      done.
    - apply elem_of_cons in Hl as [->|Hl]; [done|].
      apply list_elem_of_singleton in Hl as ->. done. }
  split; [|split; [exact Hverdict|split; [|split]]].
  - exists region_str. apply elem_of_cons; right. apply elem_of_app; left.
    apply list_elem_of_lookup. eauto.
  - apply no_verdict_no_tally, Forall_forall.
    intros l [Hn Hl]%list_elem_of_filter. by apply Hverdict.
  - apply no_verdict_no_tally, Forall_forall.
    intros l [Hn Hl]%list_elem_of_filter. by apply Hverdict.
  - apply elem_of_cons; right. apply elem_of_app; right.
    apply list_elem_of_here.
Qed.

Example main_reports_gene_not_found_example :
  main gtf_G1 valid_then_missing = Ok valid_then_missing_out.
Proof. vm_compute. reflexivity. Qed.

End VerifyMatchesSpec.

(** ** More facts about the Python primitives *)

Module PyMoreFacts.
Import PyFacts.

Lemma prefix_app (n h : string) :
  String.prefix n h = true ↔ ∃ s, h = n +:+ s.
Proof.
  revert h. induction n as [|a n IH]; intros h.
  - split; [intros _; by exists h|]. intros _. by destruct h.
  - destruct h as [|b h]; simpl.
    + split; [discriminate|]. intros (s & Hs). discriminate.
    + destruct (ascii_dec a b) as [->|Hab].
      * rewrite IH. split; intros (s & Hs); exists s.
        -- by rewrite append_cons, Hs.
        -- rewrite append_cons in Hs. congruence.
      * split; [discriminate|]. intros (s & Hs).
        rewrite append_cons in Hs. congruence.
Qed.

(** [needle in hay] holds exactly when [hay] is some text, the needle, and
    some more text. *)
Lemma contains_spec (n h : string) :
  contains n h = true ↔ ∃ p s, h = p +:+ n +:+ s.
Proof.
  induction h as [|c h IH].
  - change (contains n "") with (String.prefix n "" || false).
    rewrite orb_false_r, prefix_app. split.
    + intros (s & Hs). by exists "", s.
    + intros (p & s & Hs). destruct p as [|x p]; [by exists s|].
      rewrite append_cons in Hs. discriminate.
  - change (contains n (String c h))
      with (String.prefix n (String c h) || contains n h).
    rewrite orb_true_iff, IH, prefix_app. split.
    + intros [(s & Hs)|(p & s & Hs)].
      * by exists "", s.
      * exists (String c p), s. by rewrite append_cons, Hs.
    + intros (p & s & Hs). destruct p as [|x p].
      * left. by exists s.
      * right. rewrite append_cons in Hs. injection Hs as -> ->. eauto.
Qed.

Lemma contains_trans (a b h : string) :
  contains a b = true → contains b h = true → contains a h = true.
Proof.
  rewrite !contains_spec. intros (p & s & ->) (p' & s' & ->).
  exists (p' +:+ p), (s +:+ s'). by rewrite !append_assoc_str.
Qed.

Lemma rpartition_Some_inv sep s a b :
  rpartition sep s = Some (a, b) →
  s = a +:+ String sep b ∧ mem_char sep b = false.
Proof.
  revert a. induction s as [|c s IH]; intros a; simpl; [discriminate|].
  destruct (rpartition sep s) as [[a' b']|] eqn:Hs.
  - intros [= <- <-]. destruct (IH a' eq_refl) as [-> Hb].
    by rewrite append_cons.
  - destruct (decide (c = sep)) as [->|]; [|discriminate].
    intros [= <- <-]. split; [reflexivity|].
    clear IH. induction s as [|d s IH]; simpl in *; [done|].
    destruct (rpartition sep s) as [[a' b']|]; [discriminate|].
    destruct (decide (d = sep)); [discriminate|]. by apply IH.
Qed.

Lemma rpartition_None_inv sep s :
  rpartition sep s = None → mem_char sep s = false.
Proof.
  induction s as [|d s IH]; simpl; [done|].
  destruct (rpartition sep s) as [[a' b']|]; [discriminate|].
  destruct (decide (d = sep)); [discriminate|]. intros _. by apply IH.
Qed.

Lemma split_nonempty sep s : split sep s ≠ [].
Proof.
  destruct s as [|c s]; simpl; [done|].
  destruct (decide (c = sep)); [done|]. by destruct (split sep s).
Qed.

(** Joining the fields of [split] with the separator gives the text back. *)
Lemma concat_split sep s :
  String.concat (String sep "") (split sep s) = s.
Proof.
  induction s as [|c s IH]; [reflexivity|]. simpl split.
  destruct (decide (c = sep)) as [->|Hc].
  - pose proof (split_nonempty sep s).
    destruct (split sep s) as [|f fs] eqn:Hf; [done|].
    change (String.concat (String sep "") ("" :: f :: fs))
      with (String sep (String.concat (String sep "") (f :: fs))).
    by rewrite IH.
  - pose proof (split_nonempty sep s).
    destruct (split sep s) as [|f fs] eqn:Hf; [done|].
    destruct fs as [|g fs]; simpl in *; by rewrite <- IH.
Qed.

Lemma split_fields_no_sep sep s :
  Forall (fun f => mem_char sep f = false) (split sep s).
Proof.
  induction s as [|c s IH]; simpl; [by repeat constructor|].
  destruct (decide (c = sep)) as [->|Hc]; [by constructor|].
  destruct (split sep s) as [|f fs].
  { constructor; [|constructor]. simpl. by rewrite decide_False. }
  inversion IH as [|?? Hf Hfs]; subst. constructor; [|done].
  simpl. by rewrite decide_False.
Qed.

(** The first field of a text that starts with another character than the
    separator is not empty. *)
Lemma split_first_nonempty sep c s :
  c ≠ sep → ∃ f fs, split sep (String c s) = String c f :: fs.
Proof.
  intros Hc. simpl. rewrite decide_False by done.
  destruct (split sep s) as [|f fs]; eauto.
Qed.

Lemma rstrip_cons_nonspace c s :
  isspace c = false → ∃ t, rstrip (String c s) = String c t.
Proof.
  intros Hc. simpl. destruct (rstrip s); [rewrite Hc|]; eauto.
Qed.

Lemma lstrip_first s c t : lstrip s = String c t → isspace c = false.
Proof.
  induction s as [|d s IH]; simpl; [discriminate|].
  destruct (isspace d) eqn:Hd; [done|]. by intros [= <- _].
Qed.

(** A stripped text does not start with whitespace. *)
Lemma strip_first s c t : strip s = String c t → isspace c = false.
Proof.
  unfold strip. destruct (lstrip s) as [|d u] eqn:Hl; [discriminate|].
  pose proof (lstrip_first _ _ _ Hl) as Hd.
  destruct (rstrip_cons_nonspace d u Hd) as (t' & ->). by intros [= <- _].
Qed.

(** [int()] raises nothing but [ValueError]. *)
Lemma int_raises_ValueError s e : int s = Raise e → e = ValueError.
Proof.
  unfold int.
  destruct (match int_rstrip (int_lstrip s) with
            | String "+" r => int_digits r 0 false
            | String "-" r => Z.opp <$> int_digits r 0 false
            | _ => int_digits (int_rstrip (int_lstrip s)) 0 false
            end); [discriminate|]. by intros [= <-].
Qed.

End PyMoreFacts.

(** ** More properties of [compare_outputs.py] *)

Module CompareOutputsMore.
Import CompareOutputs Inputs Reading Cases PyFacts PyMoreFacts.
Import CompareOutputsSpec.

Lemma append_cons_assoc (a b d : string) (c : ascii) :
  a +:+ String c (b +:+ d) = (a +:+ String c b) +:+ d.
Proof.
  rewrite append_assoc_str. by rewrite append_cons.
Qed.

Lemma append_nil_right (a : string) : a +:+ "" = a.
Proof.
  induction a as [|x a IH]; [reflexivity|]. by rewrite append_cons, IH.
Qed.

(** Cutting at the last separator is unambiguous. *)
Lemma join_last_inj sep (a b a' b' : string) :
  mem_char sep b = false → mem_char sep b' = false →
  a +:+ String sep b = a' +:+ String sep b' → a = a' ∧ b = b'.
Proof.
  intros Hb Hb' Heq. apply (f_equal (rpartition sep)) in Heq.
  rewrite (rpartition_last _ _ _ Hb), (rpartition_last _ _ _ Hb') in Heq.
  by injection Heq.
Qed.

Lemma joined_key_grouped (c : Columns) :
  joined_key c
  = ((Region c +:+ String "_" (Gene c)) +:+ String "_" (Transcript c))
      +:+ String "_" (Area c).
Proof.
  unfold joined_key.
  rewrite !append_assoc_str. reflexivity.
Qed.

Lemma joined_key_inj (c1 c2 : Columns) :
  underscore_free c1 → underscore_free c2 →
  joined_key c1 = joined_key c2 → assertion c1 = assertion c2.
Proof.
  intros (Hg1 & Ht1 & Ha1) (Hg2 & Ht2 & Ha2).
  rewrite !joined_key_grouped. intros Heq.
  apply join_last_inj in Heq as [Heq HA]; [|done..].
  apply join_last_inj in Heq as [Heq HT]; [|done..].
  apply join_last_inj in Heq as [HR HG]; [|done..].
  unfold assertion. congruence.
Qed.

Lemma load_output_keys (table : list Columns) :
  _key <$> load_output table = joined_key <$> table.
Proof. unfold load_output. by rewrite <- list_fmap_compose. Qed.

(** X2: on rows whose gene, transcript and area hold no underscore the key
    is injective: two loaded records with the same key agree on region,
    gene, transcript and area. *)
Theorem key_identifies_assertion (t1 t2 : list Columns) (r1 r2 : Row) :
  r1 ∈ load_output t1 → r2 ∈ load_output t2 →
  underscore_free (cols r1) → underscore_free (cols r2) →
  _key r1 = _key r2 →
  Region (cols r1) = Region (cols r2) ∧ Gene (cols r1) = Gene (cols r2)
  ∧ Transcript (cols r1) = Transcript (cols r2)
  ∧ Area (cols r1) = Area (cols r2).
Proof.
  unfold load_output. rewrite !list_elem_of_fmap.
  intros (c1 & -> & _) (c2 & -> & _) H1 H2 Hkey. simpl in *.
  pose proof (joined_key_inj c1 c2 H1 H2 Hkey) as Ha.
  unfold assertion in Ha. by injection Ha.
Qed.

Lemma key_identifies_assertion_witness :
  Region row_intron = Region row_intron ∧ Gene row_intron = Gene row_intron
  ∧ Transcript row_intron = Transcript row_intron
  ∧ Area row_intron = Area row_intron.
Proof.
  apply (key_identifies_assertion [row_intron] [row_upstream; row_intron]
           (keyed row_intron "chr1_100_200_G1_T1_INTRON")
           (keyed row_intron "chr1_100_200_G1_T1_INTRON")).
  - apply list_elem_of_here.
  - apply list_elem_of_further, list_elem_of_here.
  - repeat split; reflexivity.
  - repeat split; reflexivity.
  - reflexivity.
Defined.

(** The number of distinct elements of a list is at most its length, with
    equality exactly when the list has no duplicate. *)
Lemma size_list_to_set_le (l : list string) :
  (size (list_to_set (C := gset string) l) ≤ length l)%nat
  ∧ (size (list_to_set (C := gset string) l) = length l ↔ NoDup l).
Proof.
  induction l as [|x l [IHle IHeq]].
  - split; [done|]. split; [constructor|done].
  - rewrite list_to_set_cons, NoDup_cons. simpl length.
    destruct (decide (x ∈ l)) as [Hin|Hnin].
    + assert ({[x]} ∪ list_to_set l = list_to_set (C := gset string) l) as ->.
      { apply subseteq_union_1_L. apply elem_of_subseteq_singleton.
        by apply elem_of_list_to_set. }
      split; [lia|]. split; [lia|tauto].
    + rewrite size_union, size_singleton.
      * split; [lia|]. rewrite <- IHeq. split; [intros; split; [done|lia]|lia].
      * intros y Hy1 Hy2. apply elem_of_singleton in Hy1 as ->.
        by apply elem_of_list_to_set in Hy2.
Qed.

(** X3: whatever the keys, the exclusive and common counts never exceed
    the totals; they add up to the total of a side exactly when the keys of
    that side are unique, so a shortfall reveals duplicate keys. *)
Theorem analyze_pair_counts_reveal_duplicates hash (df_rs df_py : list Row)
    lbl s sampled :
  analyze_pair hash df_rs df_py lbl = Ok (s, sampled) →
  rust_only s + common s ≤ rust_total s
  ∧ python_only s + common s ≤ python_total s
  ∧ (rust_only s + common s = rust_total s ↔ NoDup (_key <$> df_rs))
  ∧ (python_only s + common s = python_total s ↔ NoDup (_key <$> df_py)).
Proof.
  intros ->%analyze_pair_summary. simpl. unfold len.
  rewrite <- !Nat2Z.inj_add.
  rewrite size_difference_intersection.
  rewrite (comm_L (∩) (list_to_set (_key <$> df_rs))).
  rewrite size_difference_intersection.
  destruct (size_list_to_set_le (_key <$> df_rs)) as [Hle1 Heq1].
  destruct (size_list_to_set_le (_key <$> df_py)) as [Hle2 Heq2].
  rewrite length_fmap in Hle1, Heq1, Hle2, Heq2.
  rewrite <- Heq1, <- Heq2. lia.
Qed.

Lemma analyze_pair_counts_reveal_duplicates_witness :
  rust_only (Build_Summary "main" 2 1 1 0 1)
    + common (Build_Summary "main" 2 1 1 0 1)
    ≤ rust_total (Build_Summary "main" 2 1 1 0 1)
  ∧ python_only (Build_Summary "main" 2 1 1 0 1)
    + common (Build_Summary "main" 2 1 1 0 1)
    ≤ python_total (Build_Summary "main" 2 1 1 0 1)
  ∧ (rust_only (Build_Summary "main" 2 1 1 0 1)
     + common (Build_Summary "main" 2 1 1 0 1)
     = rust_total (Build_Summary "main" 2 1 1 0 1)
     ↔ NoDup (_key <$> small_rs))
  ∧ (python_only (Build_Summary "main" 2 1 1 0 1)
     + common (Build_Summary "main" 2 1 1 0 1)
     = python_total (Build_Summary "main" 2 1 1 0 1)
     ↔ NoDup (_key <$> small_py)).
Proof.
  apply (analyze_pair_counts_reveal_duplicates hash_seed16 small_rs small_py
           "main" (Build_Summary "main" 2 1 1 0 1)
           (Some [keyed row_upstream "chr1_100_200_G1_T1_UPSTREAM"])).
  vm_compute. reflexivity.
Defined.

(** X4: comparing the two outputs the other way round exchanges the two
    exclusive counts and the two totals and keeps the common count. *)
Theorem analyze_pair_swapped hash (df_rs df_py : list Row) lbl lbl'
    s s' sampled sampled' :
  analyze_pair hash df_rs df_py lbl = Ok (s, sampled) →
  analyze_pair hash df_py df_rs lbl' = Ok (s', sampled') →
  rust_only s' = python_only s ∧ python_only s' = rust_only s
  ∧ common s' = common s
  ∧ rust_total s' = python_total s ∧ python_total s' = rust_total s.
Proof.
  intros ->%analyze_pair_summary ->%analyze_pair_summary. simpl.
  repeat split. do 2 f_equal. apply set_eq. intros x.
  rewrite !elem_of_intersection. tauto.
Qed.

Lemma analyze_pair_swapped_witness :
  rust_only (Build_Summary "back" 1 2 0 1 1)
    = python_only (Build_Summary "main" 2 1 1 0 1)
  ∧ python_only (Build_Summary "back" 1 2 0 1 1)
    = rust_only (Build_Summary "main" 2 1 1 0 1)
  ∧ common (Build_Summary "back" 1 2 0 1 1)
    = common (Build_Summary "main" 2 1 1 0 1)
  ∧ rust_total (Build_Summary "back" 1 2 0 1 1)
    = python_total (Build_Summary "main" 2 1 1 0 1)
  ∧ python_total (Build_Summary "back" 1 2 0 1 1)
    = rust_total (Build_Summary "main" 2 1 1 0 1).
Proof.
  apply (analyze_pair_swapped hash_seed16 small_rs small_py "main" "back"
           (Build_Summary "main" 2 1 1 0 1) (Build_Summary "back" 1 2 0 1 1)
           (Some [keyed row_upstream "chr1_100_200_G1_T1_UPSTREAM"]) None);
    vm_compute; reflexivity.
Defined.

Lemma filter_ext_elem {A} (P Q : A → Prop) `{∀ x, Decision (P x)}
    `{∀ x, Decision (Q x)} (l : list A) :
  (∀ x, x ∈ l → (P x ↔ Q x)) → filter P l = filter Q l.
Proof.
  induction l as [|x l IH]; intros HPQ; [done|].
  rewrite !filter_cons.
  rewrite IH by (intros y Hy; apply HPQ; by apply list_elem_of_further).
  pose proof (HPQ x (list_elem_of_here _ _)).
  destruct (decide (P x)), (decide (Q x)); tauto.
Qed.

(** The rows that [analyze_pair] selects with [isin(rs_only)]. *)
Lemma rust_only_filter (df_rs df_py : list Row) :
  filter (fun r => _key r ∈ list_to_set (C := gset string) (_key <$> df_rs)
                            ∖ list_to_set (_key <$> df_py)) df_rs
  = rust_only_rows df_rs df_py.
Proof.
  apply filter_ext_elem. intros r Hr.
  rewrite elem_of_difference, !elem_of_list_to_set.
  split; [tauto|]. intros Hn. split; [|done].
  apply list_elem_of_fmap. eauto.
Qed.

(** [analyze_pair], by cases on the Rust-only rows. *)
Lemma analyze_pair_eq hash (df_rs df_py : list Row) lbl :
  analyze_pair hash df_rs df_py lbl
  = match rust_only_rows df_rs df_py with
    | [] => Ok (diff_summary df_rs df_py lbl, None)
    | _ :: _ =>
        (fun sample => (diff_summary df_rs df_py lbl, Some sample))
          <$> stratified_sample hash
                (Z.min 20 (len (rust_only_rows df_rs df_py)))
                (rust_only_rows df_rs df_py)
    end.
Proof.
  unfold analyze_pair. cbv zeta. rewrite rust_only_filter.
  destruct (rust_only_rows df_rs df_py) as [|r rows] eqn:Hrows.
  - reflexivity.
  - assert ((0 <? Z.min 20 (len (r :: rows))) = true) as ->.
    { apply Z.ltb_lt. unfold len. simpl length. lia. }
    by destruct (stratified_sample _ _ _).
Qed.

Lemma rust_only_rows_nil (df_rs df_py : list Row) :
  rust_only_rows df_rs df_py = []
  ↔ ∀ r, r ∈ df_rs → _key r ∈ (_key <$> df_py).
Proof.
  unfold rust_only_rows. split.
  - intros Hnil r Hr.
    destruct (decide (_key r ∈ (_key <$> df_py))) as [|Hn]; [done|].
    assert (r ∈ filter (fun r => _key r ∉ (_key <$> df_py)) df_rs)
      by (by apply list_elem_of_filter).
    rewrite Hnil in *. by apply not_elem_of_nil in H.
  - intros Hall.
    destruct (filter _ df_rs) as [|r rows] eqn:Hf; [done|].
    assert (Hr : r ∈ filter (fun r => _key r ∉ (_key <$> df_py)) df_rs)
      by (rewrite Hf; apply list_elem_of_here).
    apply list_elem_of_filter in Hr as [Hn Hr]. destruct Hn. by apply Hall.
Qed.

Lemma rust_only_count_zero (df_rs df_py : list Row) lbl :
  rust_only (diff_summary df_rs df_py lbl) = 0
  ↔ rust_only_rows df_rs df_py = [].
Proof.
  simpl. rewrite rust_only_rows_nil.
  rewrite <- Nat2Z.inj_0, Nat2Z.inj_iff, size_empty_iff, elem_of_equiv_empty.
  split.
  - intros Hempty r Hr.
    destruct (decide (_key r ∈ (_key <$> df_py))) as [|Hn]; [done|].
    exfalso. apply (Hempty (_key r)).
    rewrite elem_of_difference, !elem_of_list_to_set. split; [|done].
    apply list_elem_of_fmap. eauto.
  - intros Hall k. rewrite elem_of_difference, !elem_of_list_to_set.
    intros [(r & -> & Hr)%list_elem_of_fmap Hn]. by apply Hn, Hall.
Qed.

(** X5: when every key of the Rust output is a key of the Python output,
    [analyze_pair] returns with no Rust-only match and writes no sample,
    whatever the hash of the labels. *)
Theorem analyze_pair_nothing_exclusive hash (df_rs df_py : list Row) lbl :
  (∀ r, r ∈ df_rs → _key r ∈ (_key <$> df_py)) →
  ∃ s, analyze_pair hash df_rs df_py lbl = Ok (s, None)
       ∧ rust_only s = 0 ∧ common s + python_only s ≤ python_total s.
Proof.
  intros Hall. exists (diff_summary df_rs df_py lbl).
  rewrite analyze_pair_eq.
  rewrite (proj2 (rust_only_rows_nil df_rs df_py) Hall).
  split; [done|]. split.
  - apply rust_only_count_zero. by apply rust_only_rows_nil.
  - simpl. unfold len. rewrite <- Nat2Z.inj_add. apply inj_le.
    rewrite (comm_L (∩) (list_to_set (_key <$> df_rs))), Nat.add_comm.
    rewrite size_difference_intersection.
    destruct (size_list_to_set_le (_key <$> df_py)) as [Hle _].
    by rewrite length_fmap in Hle.
Qed.

Lemma analyze_pair_nothing_exclusive_witness :
  ∃ s, analyze_pair (fun _ => 0) small_py small_rs "main" = Ok (s, None)
       ∧ rust_only s = 0 ∧ common s + python_only s ≤ python_total s.
Proof.
  apply (analyze_pair_nothing_exclusive (fun _ => 0) small_py small_rs "main").
  intros r Hr. apply list_elem_of_singleton in Hr as ->.
  apply list_elem_of_further, list_elem_of_here.
Defined.

(** The quota of a group is between one and five rows. *)
Lemma quota_range hash (n : Z) (name : string) (q : Z) :
  quota hash n name = Ok q → 1 ≤ q ≤ 5.
Proof.
  unfold quota. case_decide; [discriminate|]. intros [= <-].
  pose proof (Z.mod_pos_bound (n / hash name) 5). lia.
Qed.

Lemma quota_raises hash (n : Z) (name : string) (e : exn) :
  quota hash n name = Raise e ↔ e = ZeroDivisionError ∧ hash name = 0.
Proof.
  unfold quota. case_decide; split; try discriminate.
  - by intros [= <-].
  - by intros [-> _].
  - tauto.
Qed.

Lemma head_elem {A} (q : Z) (l : list A) (x : A) : x ∈ head q l → x ∈ l.
Proof. unfold head. destruct (0 <=? q); apply subseteq_take. Qed.

Lemma head_is_take {A} (q : Z) (l : list A) : ∃ k, head q l = take k l.
Proof. unfold head. destruct (0 <=? q); eauto. Qed.

Lemma length_head_quota {A} (q : Z) (l : list A) :
  0 ≤ q → (length (head q l) ≤ Z.to_nat q)%nat.
Proof.
  intros Hq. unfold head. destruct (Z.leb_spec 0 q); [|lia].
  rewrite length_take. lia.
Qed.

Lemma head_whole {A} (q : Z) (l : list A) :
  0 ≤ q → head q l = l → (length l ≤ Z.to_nat q)%nat.
Proof.
  intros Hq Hw. rewrite <- Hw at 1. by apply length_head_quota.
Qed.

(** Cutting a frame cannot add rows to a category. *)
Lemma length_in_area_head (a : string) (q : Z) (l : list Row) :
  (length (in_area a (head q l)) ≤ length (in_area a l))%nat.
Proof.
  destruct (head_is_take q l) as [k ->]. unfold in_area.
  rewrite <- (take_drop k l) at 2. rewrite filter_app, length_app. lia.
Qed.

Lemma in_area_other (a b : string) (l : list Row) :
  (∀ r, r ∈ l → Area (cols r) = b) → a ≠ b → in_area a l = [].
Proof.
  intros Hall Hab. unfold in_area.
  induction l as [|r l IH]; [done|].
  rewrite filter_cons, decide_False.
  - apply IH. intros r' Hr'. apply Hall. by apply list_elem_of_further.
  - rewrite (Hall r (list_elem_of_here _ _)). congruence.
Qed.

Lemma in_area_app (a : string) (l k : list Row) :
  in_area a (l ++ k) = in_area a l ++ in_area a k.
Proof. unfold in_area. apply filter_app. Qed.

Lemma in_area_elem (a : string) (l : list Row) (r : Row) :
  r ∈ in_area a l ↔ Area (cols r) = a ∧ r ∈ l.
Proof. unfold in_area. by rewrite list_elem_of_filter. Qed.

(** The labels of the groups are the areas that occur, each once. *)
Lemma group_labels (rows : list Row) (a : string) :
  a ∈ merge_sort String.le (remove_dups (Area ∘ cols <$> rows))
  ↔ ∃ r, r ∈ rows ∧ Area (cols r) = a.
Proof.
  rewrite merge_sort_Permutation, elem_of_remove_dups, list_elem_of_fmap.
  split; intros (r & H1 & H2); exists r; simpl in *; by split.
Qed.

Lemma group_labels_NoDup (rows : list Row) :
  NoDup (merge_sort String.le (remove_dups (Area ∘ cols <$> rows))).
Proof. rewrite merge_sort_Permutation. apply NoDup_remove_dups. Qed.

Lemma picked_groups hash (n : Z) (rows : list Row) picked :
  mapM (fun g : string * list Row =>
          q ← quota hash n g.1; mret (g.2, head q g.2))
       (groupby_Area rows) = Ok picked →
  picked_from rows
    (merge_sort String.le (remove_dups (Area ∘ cols <$> rows))) picked.
Proof.
  intros Hp%mapM_Ok_Forall2. unfold groupby_Area in Hp.
  rewrite Forall2_fmap_l in Hp. unfold picked_from.
  eapply Forall2_impl; [exact Hp|]. intros a p Hq. simpl in Hq.
  destruct (quota hash n a) as [q|] eqn:Hquota; simpl in Hq; [|discriminate].
  injection Hq as <-. exists q. split; [|done]. by eapply quota_range.
Qed.

(** The concatenation of the picked rows: rows of the frame only, at most
    five per category, none of a category that has no group. *)
Lemma picked_concat (rows : list Row) (a : string) labels picked :
  NoDup labels → picked_from rows labels picked →
  (∀ r, r ∈ concat (snd <$> picked) → r ∈ rows)
  ∧ (length (in_area a (concat (snd <$> picked))) ≤ 5)%nat
  ∧ (a ∉ labels → in_area a (concat (snd <$> picked)) = []).
Proof.
  intros Hnd Hp. induction Hp as [|b p labels picked (q & Hq & ->) _ IH].
  - simpl. repeat split; [|lia]. intros r Hr. by apply not_elem_of_nil in Hr.
  - apply NoDup_cons in Hnd as [Hb Hnd].
    destruct (IH Hnd) as (IHin & IHlen & IHnone).
    assert (Hhead : ∀ r, r ∈ head q (in_area b rows) → Area (cols r) = b).
    { intros r Hr%head_elem. by apply in_area_elem in Hr as [? _]. }
    assert (concat (snd <$> (in_area b rows, head q (in_area b rows))
                              :: picked)
            = head q (in_area b rows) ++ concat (snd <$> picked)) as ->
      by reflexivity.
    rewrite in_area_app.
    split; [|split].
    + intros r [Hr|Hr]%elem_of_app; [|by apply IHin].
      apply head_elem in Hr. by apply in_area_elem in Hr as [_ ?].
    + rewrite length_app. destruct (decide (a = b)) as [->|Hab].
      * rewrite (IHnone Hb). simpl.
        pose proof (length_filter (fun r => Area (cols r) = b)
                      (head q (in_area b rows))) as Hf.
        pose proof (length_head_quota q (in_area b rows)).
        fold (in_area b (head q (in_area b rows))) in Hf. lia.
      * rewrite (in_area_other a b _ Hhead Hab). simpl. lia.
    + intros Hnot. apply not_elem_of_cons in Hnot as [Hab Hnot].
      by rewrite (in_area_other a b _ Hhead Hab), (IHnone Hnot).
Qed.

(** Every category of the frame has its first row among the picked rows. *)
Lemma picked_covers (rows : list Row) labels picked (r : Row) :
  picked_from rows labels picked → r ∈ rows → Area (cols r) ∈ labels →
  ∃ r', r' ∈ concat (snd <$> picked) ∧ Area (cols r') = Area (cols r).
Proof.
  intros Hp Hr Hl. apply list_elem_of_lookup in Hl as (k & Hk).
  destruct (Forall2_lookup_l _ _ _ _ _ Hp Hk) as (p & Hpk & q & Hq & ->).
  assert (Hin : r ∈ in_area (Area (cols r)) rows) by (by apply in_area_elem).
  destruct (in_area (Area (cols r)) rows) as [|r0 rest] eqn:Hgrp;
    [by apply not_elem_of_nil in Hin|].
  exists r0. split.
  - apply (elem_of_concat_intro r0 (head q (r0 :: rest)));
      [apply head_first; lia|].
    apply list_elem_of_fmap. eexists (_, _). split; [reflexivity|].
    by eapply list_elem_of_lookup_2.
  - assert (Hr0 : r0 ∈ in_area (Area (cols r)) rows)
      by (rewrite Hgrp; apply list_elem_of_here).
    by apply in_area_elem in Hr0 as [? _].
Qed.

(** The frame that the final [head(sample_size)] cuts: it holds rows of the
    input only, at most five of each category and at least one of each. *)
Lemma stratified_sample_applied hash (n : Z) (rows sample : list Row) :
  stratified_sample hash n rows = Ok sample →
  ∃ applied,
    sample = head n applied
    ∧ (∀ r, r ∈ applied → r ∈ rows)
    ∧ (∀ a, (length (in_area a applied) ≤ 5)%nat)
    ∧ (∀ r, r ∈ rows →
         ∃ r', r' ∈ applied ∧ Area (cols r') = Area (cols r)).
Proof.
  unfold stratified_sample.
  destruct (mapM _ _) as [picked|e] eqn:Hp; simpl; [|discriminate].
  apply picked_groups in Hp. intros [= <-].
  pose proof (group_labels_NoDup rows) as Hnd.
  case_decide as Hwhole.
  - exists rows. repeat split; [done| |by eauto].
    intros a.
    destruct (decide (a ∈ merge_sort String.le
                        (remove_dups (Area ∘ cols <$> rows)))) as [Ha|Ha].
    + apply list_elem_of_lookup in Ha as (k & Hk).
      destruct (Forall2_lookup_l _ _ _ _ _ Hp Hk) as (p & Hpk & q & Hq & ->).
      apply list_elem_of_lookup_2 in Hpk.
      rewrite Forall_forall in Hwhole. specialize (Hwhole _ Hpk).
      simpl in Hwhole. apply head_whole in Hwhole; lia.
    + assert (in_area a rows = []) as ->; [|simpl; lia].
      destruct (in_area a rows) as [|r0 rest] eqn:Hgrp; [done|].
      assert (Hr0 : r0 ∈ in_area a rows)
        by (rewrite Hgrp; apply list_elem_of_here).
      apply in_area_elem in Hr0 as [Harea Hr0].
      destruct Ha. apply group_labels. eauto.
  - exists (concat (snd <$> picked)). split; [done|].
    split; [|split].
    + intros r. by apply (picked_concat rows "" _ _ Hnd Hp).
    + intros a. by apply (picked_concat rows a _ _ Hnd Hp).
    + intros r Hr. apply (picked_covers rows _ _ r Hp Hr).
      apply group_labels. eauto.
Qed.

Lemma analyze_pair_Some hash (df_rs df_py : list Row) lbl s sample :
  analyze_pair hash df_rs df_py lbl = Ok (s, Some sample) →
  s = diff_summary df_rs df_py lbl
  ∧ rust_only_rows df_rs df_py ≠ []
  ∧ stratified_sample hash (Z.min 20 (len (rust_only_rows df_rs df_py)))
      (rust_only_rows df_rs df_py) = Ok sample.
Proof.
  rewrite analyze_pair_eq.
  destruct (rust_only_rows df_rs df_py) as [|r rows]; [discriminate|].
  destruct (stratified_sample _ _ _) as [x|e]; simpl; [|discriminate].
  by intros [= <- <-].
Qed.

Lemma analyze_pair_None hash (df_rs df_py : list Row) lbl s :
  analyze_pair hash df_rs df_py lbl = Ok (s, None) →
  s = diff_summary df_rs df_py lbl ∧ rust_only_rows df_rs df_py = [].
Proof.
  rewrite analyze_pair_eq.
  destruct (rust_only_rows df_rs df_py) as [|r rows]; [by intros [= <-]|].
  destruct (stratified_sample _ _ _) as [x|e]; simpl; discriminate.
Qed.

(** X7: every row of the exported sample is a row of the Rust output whose
    key does not occur in the Python output. *)
Theorem sample_rows_are_rust_only hash (df_rs df_py : list Row) lbl s sample
    (r : Row) :
  analyze_pair hash df_rs df_py lbl = Ok (s, Some sample) →
  r ∈ sample → r ∈ df_rs ∧ _key r ∉ (_key <$> df_py).
Proof.
  intros (_ & _ & Hs)%analyze_pair_Some Hr.
  apply stratified_sample_applied in Hs as (applied & -> & Hin & _).
  apply head_elem, Hin in Hr. unfold rust_only_rows in Hr.
  apply list_elem_of_filter in Hr. tauto.
Qed.

Lemma sample_rows_are_rust_only_witness :
  keyed row_upstream "chr1_100_200_G1_T1_UPSTREAM" ∈ small_rs
  ∧ _key (keyed row_upstream "chr1_100_200_G1_T1_UPSTREAM")
      ∉ (_key <$> small_py).
Proof.
  apply (sample_rows_are_rust_only hash_seed16 small_rs small_py "main"
           (Build_Summary "main" 2 1 1 0 1)
           [keyed row_upstream "chr1_100_200_G1_T1_UPSTREAM"]).
  - vm_compute. reflexivity.
  - apply list_elem_of_here.
Defined.

(** X8: the exported sample holds at most five rows of each area
    category. *)
Theorem sample_at_most_five_per_area hash (df_rs df_py : list Row) lbl
    s sample (a : string) :
  analyze_pair hash df_rs df_py lbl = Ok (s, Some sample) →
  len (in_area a sample) ≤ 5.
Proof.
  intros (_ & _ & Hs)%analyze_pair_Some.
  apply stratified_sample_applied in Hs as (applied & -> & _ & Hfive & _).
  pose proof (length_in_area_head a
                (Z.min 20 (len (rust_only_rows df_rs df_py))) applied).
  specialize (Hfive a). unfold len in *. lia.
Qed.

Lemma sample_at_most_five_per_area_witness :
  len (in_area "UPSTREAM"
         [keyed row_upstream "chr1_100_200_G1_T1_UPSTREAM"]) ≤ 5.
Proof.
  apply (sample_at_most_five_per_area hash_seed16 small_rs small_py "main"
           (Build_Summary "main" 2 1 1 0 1)
           [keyed row_upstream "chr1_100_200_G1_T1_UPSTREAM"] "UPSTREAM").
  vm_compute. reflexivity.
Defined.

(** X6: a sample is written exactly when some key is exclusive to the Rust
    output, and a written sample is never empty. *)
Theorem sample_written_iff hash (df_rs df_py : list Row) lbl s sampled :
  analyze_pair hash df_rs df_py lbl = Ok (s, sampled) →
  (sampled = None ↔ rust_only s = 0)
  ∧ (∀ sample, sampled = Some sample → 1 ≤ len sample).
Proof.
  intros Hrun. destruct sampled as [sample|].
  - apply analyze_pair_Some in Hrun as (-> & Hrows & Hs). split.
    + split; [discriminate|]. by intros ?%rust_only_count_zero.
    + intros ? [= <-].
      apply stratified_sample_applied in Hs as (applied & -> & _ & _ & Hcov).
      destruct (rust_only_rows df_rs df_py) as [|r0 rows]; [done|].
      destruct (Hcov r0 (list_elem_of_here _ _)) as (r' & Hr' & _).
      destruct applied as [|x applied]; [by apply not_elem_of_nil in Hr'|].
      assert (Hx : x ∈ head (Z.min 20 (len (r0 :: rows))) (x :: applied)).
      { apply head_first. unfold len. simpl length. lia. }
      unfold len. destruct (head _ (x :: applied));
        [by apply not_elem_of_nil in Hx|simpl; lia].
  - apply analyze_pair_None in Hrun as (-> & Hrows). split; [|discriminate].
    split; [|done]. intros _. by apply rust_only_count_zero.
Qed.

Lemma sample_written_iff_witness :
  (Some [keyed row_upstream "chr1_100_200_G1_T1_UPSTREAM"] = None
   ↔ rust_only (Build_Summary "main" 2 1 1 0 1) = 0)
  ∧ (∀ sample,
       Some [keyed row_upstream "chr1_100_200_G1_T1_UPSTREAM"] = Some sample →
       1 ≤ len sample).
Proof.
  apply (sample_written_iff hash_seed16 small_rs small_py "main").
  vm_compute. reflexivity.
Defined.

Lemma mapM_Raise {A B} (f : A → result B) (l : list A) (e : exn) :
  mapM f l = Raise e → ∃ x, x ∈ l ∧ f x = Raise e.
Proof.
  induction l as [|x l IH]; simpl; [discriminate|].
  destruct (f x) as [y|e'] eqn:Hx; simpl.
  - destruct (mapM f l) as [k|e'']; simpl; [discriminate|].
    intros [= <-]. destruct (IH eq_refl) as (x' & Hx' & Hf).
    exists x'. split; [by apply list_elem_of_further|done].
  - intros [= <-]. exists x. split; [apply list_elem_of_here|done].
Qed.

(** The sampler raises exactly when the label of some row hashes to zero,
    and then it is a division by zero. *)
Lemma stratified_sample_raises hash (n : Z) (rows : list Row) (e : exn) :
  stratified_sample hash n rows = Raise e
  ↔ e = ZeroDivisionError ∧ ∃ r, r ∈ rows ∧ hash (Area (cols r)) = 0.
Proof.
  assert (Hraise : ∀ e', stratified_sample hash n rows = Raise e' →
            e' = ZeroDivisionError ∧ ∃ r, r ∈ rows ∧ hash (Area (cols r)) = 0).
  { intros e'. unfold stratified_sample.
    destruct (mapM _ _) as [picked|e''] eqn:Hp; simpl; [discriminate|].
    intros [= <-]. apply mapM_Raise in Hp as (g & Hg & Hf).
    apply groupby_Area_elem in Hg as [(r & Hr & Ha) _].
    destruct (quota hash n g.1) as [q|e3] eqn:Hq; simpl in Hf; [discriminate|].
    injection Hf as <-. apply quota_raises in Hq as [-> Hz].
    split; [done|]. exists r. by rewrite Ha. }
  split; [apply Hraise|].
  intros [-> (r & Hr & Hz)].
  destruct (stratified_sample hash n rows) as [sample|e'] eqn:Hs.
  - exfalso. unfold stratified_sample in Hs.
    destruct (mapM _ _) as [picked|e''] eqn:Hp; simpl in Hs; [|discriminate].
    apply mapM_Ok_Forall2 in Hp.
    assert (Hg : (Area (cols r), filter (fun r' => Area (cols r') = Area (cols r)) rows)
                   ∈ groupby_Area rows) by (apply groupby_Area_elem; eauto).
    apply list_elem_of_lookup in Hg as (k & Hk).
    destruct (Forall2_lookup_l _ _ _ _ _ Hp Hk) as (p & _ & Hf).
    simpl in Hf. unfold quota in Hf. rewrite decide_True in Hf by done.
    discriminate.
  - by destruct (Hraise e' eq_refl) as [-> _].
Qed.

(** X11: [analyze_pair] can only fail with a division by zero, and it does
    exactly when the area label of some Rust-only row hashes to zero. *)
Theorem analyze_pair_raises_iff hash (df_rs df_py : list Row) lbl (e : exn) :
  analyze_pair hash df_rs df_py lbl = Raise e
  ↔ e = ZeroDivisionError
    ∧ ∃ r, r ∈ df_rs ∧ (_key r ∉ (_key <$> df_py))
           ∧ hash (Area (cols r)) = 0.
Proof.
  rewrite analyze_pair_eq.
  assert (Hrows : ∀ r, r ∈ rust_only_rows df_rs df_py
                       ↔ r ∈ df_rs ∧ _key r ∉ (_key <$> df_py)).
  { intros r. unfold rust_only_rows. rewrite list_elem_of_filter. tauto. }
  destruct (rust_only_rows df_rs df_py) as [|r0 rows] eqn:Hr0.
  - split; [discriminate|]. intros [_ (r & Hr & Hn & _)].
    assert (Hnil : r ∈ @nil Row) by (by apply Hrows).
    by apply not_elem_of_nil in Hnil.
  - rewrite <- Hr0.
    destruct (stratified_sample hash _ (rust_only_rows df_rs df_py))
      as [sample|e'] eqn:Hs; simpl.
    + split; [discriminate|]. intros [-> (r & Hr & Hn & Hz)].
      assert (stratified_sample hash
                (Z.min 20 (len (rust_only_rows df_rs df_py)))
                (rust_only_rows df_rs df_py) = Raise ZeroDivisionError) as Hx.
      { apply stratified_sample_raises. split; [done|].
        exists r. split; [rewrite Hr0; by apply Hrows|done]. }
      congruence.
    + apply stratified_sample_raises in Hs as [-> (r & Hr & Hz)].
      split.
      * intros [= <-]. split; [done|]. exists r.
        rewrite Hr0 in Hr. apply Hrows in Hr. tauto.
      * by intros [-> _].
Qed.

(** X1: the key does not tell where one field ends and the next begins:
    moving an underscore-separated piece from the end of the gene to the
    front of the transcript changes the gene but not the key, and
    [analyze_pair] counts the two rows as one common match. *)
Theorem key_collision (c : Columns) (g x t : string) hash lbl :
  Gene (with_gene_transcript c (g +:+ "_" +:+ x) t)
    ≠ Gene (with_gene_transcript c g (x +:+ "_" +:+ t))
  ∧ _key <$> load_output [with_gene_transcript c (g +:+ "_" +:+ x) t]
    = _key <$> load_output [with_gene_transcript c g (x +:+ "_" +:+ t)]
  ∧ ∃ s, analyze_pair hash
           (load_output [with_gene_transcript c (g +:+ "_" +:+ x) t])
           (load_output [with_gene_transcript c g (x +:+ "_" +:+ t)]) lbl
         = Ok (s, None)
         ∧ rust_only s = 0 ∧ python_only s = 0 ∧ common s = 1.
Proof.
  assert (Hkeys :
    _key <$> load_output [with_gene_transcript c (g +:+ "_" +:+ x) t]
    = _key <$> load_output [with_gene_transcript c g (x +:+ "_" +:+ t)]).
  { simpl. f_equal. by rewrite !append_assoc_str. }
  split; [|split; [exact Hkeys|]].
  - simpl. intros Heq. rewrite <- (append_nil_right g) in Heq at 2.
    apply (inj (String.app g)) in Heq. discriminate.
  - exists (diff_summary
              (load_output [with_gene_transcript c (g +:+ "_" +:+ x) t])
              (load_output [with_gene_transcript c g (x +:+ "_" +:+ t)]) lbl).
    rewrite analyze_pair_eq.
    assert (rust_only_rows
              (load_output [with_gene_transcript c (g +:+ "_" +:+ x) t])
              (load_output [with_gene_transcript c g (x +:+ "_" +:+ t)]) = [])
      as ->.
    { apply rust_only_rows_nil. intros r Hr. rewrite <- Hkeys.
      by apply list_elem_of_fmap_2. }
    split; [done|]. unfold diff_summary; cbn [rust_only python_only common].
    rewrite Hkeys.
    rewrite difference_diag_L, (idemp_L (∩)), size_empty.
    rewrite size_list_to_set by (apply NoDup_singleton). done.
Qed.

Lemma unique_keys_add_up (df_rs df_py : list Row) lbl :
  NoDup (_key <$> df_rs) → NoDup (_key <$> df_py) →
  rust_only (diff_summary df_rs df_py lbl)
    + common (diff_summary df_rs df_py lbl) = len df_rs
  ∧ python_only (diff_summary df_rs df_py lbl)
    + common (diff_summary df_rs df_py lbl) = len df_py.
Proof.
  intros Hrs Hpy. simpl. unfold len.
  rewrite <- !Nat2Z.inj_add.
  rewrite size_difference_intersection.
  rewrite (comm_L (∩) (list_to_set (_key <$> df_rs))).
  rewrite size_difference_intersection.
  rewrite !size_list_to_set by done. by rewrite !length_fmap.
Qed.

(** Distinct assertions without underscores get distinct keys. *)
Lemma load_output_keys_NoDup (table : list Columns) :
  Forall underscore_free table → NoDup (assertion <$> table) →
  NoDup (_key <$> load_output table).
Proof.
  rewrite load_output_keys.
  induction table as [|c table IH]; intros Hfree Hnd; [constructor|].
  apply Forall_cons in Hfree as [Hc Hfree].
  rewrite fmap_cons in Hnd. apply NoDup_cons in Hnd as [Hnin Hnd].
  rewrite fmap_cons. apply NoDup_cons. split; [|by apply IH].
  intros (c' & Hkey & Hc')%list_elem_of_fmap. apply Hnin.
  apply list_elem_of_fmap. exists c'. split; [|done].
  apply joined_key_inj; [done| |done].
  rewrite Forall_forall in Hfree. by apply Hfree.
Qed.

(** X12: [main] on two outputs whose rows hold no underscore in gene,
    transcript and area and assert each (region, gene, transcript, area)
    once: the summary it returns adds up on both sides. *)
Theorem main_counts_add_up hash (rust_output golden_output : list Columns)
    s sampled :
  Forall underscore_free rust_output → Forall underscore_free golden_output →
  NoDup (assertion <$> rust_output) → NoDup (assertion <$> golden_output) →
  main hash rust_output golden_output = Ok (s, sampled) →
  label s = "main"
  ∧ rust_only s + common s = len rust_output
  ∧ python_only s + common s = len golden_output.
Proof.
  intros Hf1 Hf2 Hn1 Hn2. unfold main. intros ->%analyze_pair_summary.
  split; [done|].
  destruct (unique_keys_add_up (load_output rust_output)
              (load_output golden_output) "main") as [H1 H2];
    [by apply load_output_keys_NoDup..|].
  unfold diff_summary in H1, H2. cbn [rust_only python_only common] in *.
  unfold len, load_output in *. rewrite !length_fmap in H1, H2. by split.
Qed.

Lemma main_counts_add_up_witness :
  label (Build_Summary "main" 2 1 1 0 1) = "main"
  ∧ rust_only (Build_Summary "main" 2 1 1 0 1)
    + common (Build_Summary "main" 2 1 1 0 1)
    = len [row_upstream; row_intron]
  ∧ python_only (Build_Summary "main" 2 1 1 0 1)
    + common (Build_Summary "main" 2 1 1 0 1)
    = len [row_intron].
Proof.
  apply (main_counts_add_up hash_seed16 [row_upstream; row_intron]
           [row_intron] (Build_Summary "main" 2 1 1 0 1)
           (Some [keyed row_upstream "chr1_100_200_G1_T1_UPSTREAM"])).
  - repeat constructor.
  - repeat constructor.
  - by_computation.
  - by_computation.
  - vm_compute. reflexivity.
Defined.

(** X9: the exported sample has at most twenty rows, and no more rows
    than there are Rust-only rows. *)
Theorem sample_has_at_most_twenty_rows hash (df_rs df_py : list Row) lbl
    s sample :
  analyze_pair hash df_rs df_py lbl = Ok (s, Some sample) →
  len sample ≤ 20 ∧ len sample ≤ len (rust_only_rows df_rs df_py).
Proof.
  intros (_ & _ & Hs)%analyze_pair_Some.
  apply stratified_sample_length in Hs; unfold len in *; lia.
Qed.

Lemma sample_has_at_most_twenty_rows_witness :
  len [keyed row_upstream "chr1_100_200_G1_T1_UPSTREAM"] ≤ 20
  ∧ len [keyed row_upstream "chr1_100_200_G1_T1_UPSTREAM"]
    ≤ len (rust_only_rows small_rs small_py).
Proof.
  apply (sample_has_at_most_twenty_rows hash_seed16 small_rs small_py "main"
           (Build_Summary "main" 2 1 1 0 1)).
  vm_compute. reflexivity.
Defined.

Lemma picked_by_groups hash (n : Z) (rows : list Row) picked :
  mapM (fun g : string * list Row =>
          q ← quota hash n g.1; mret (g.2, head q g.2))
       (groupby_Area rows) = Ok picked →
  picked_by hash n rows
    (merge_sort String.le (remove_dups (Area ∘ cols <$> rows))) picked.
Proof.
  intros Hp%mapM_Ok_Forall2. unfold groupby_Area in Hp.
  rewrite Forall2_fmap_l in Hp. unfold picked_by.
  eapply Forall2_impl; [exact Hp|]. intros a p Hq. simpl in Hq.
  destruct (quota hash n a) as [q|] eqn:Hquota; simpl in Hq; [|discriminate].
  injection Hq as <-. by exists q.
Qed.

Lemma in_area_same (a : string) (l : list Row) :
  (∀ r, r ∈ l → Area (cols r) = a) → in_area a l = l.
Proof.
  intros Hall. unfold in_area. induction l as [|r l IH]; [done|].
  rewrite filter_cons, decide_True by (apply Hall, list_elem_of_here).
  f_equal. apply IH. intros r' Hr'. by apply Hall, list_elem_of_further.
Qed.

Lemma in_area_absent (a : string) (rows : list Row) :
  a ∉ merge_sort String.le (remove_dups (Area ∘ cols <$> rows)) →
  in_area a rows = [].
Proof.
  intros Ha. destruct (in_area a rows) as [|r0 rest] eqn:Hgrp; [done|].
  assert (Hr0 : r0 ∈ in_area a rows) by (rewrite Hgrp; apply list_elem_of_here).
  apply in_area_elem in Hr0 as [Harea Hr0].
  destruct Ha. apply group_labels. eauto.
Qed.

(** The picked rows of one category are the first rows of its group, as
    many as its quota allows. *)
Lemma picked_by_area hash (n : Z) (rows : list Row) (a : string) (q : Z)
    labels picked :
  NoDup labels → picked_by hash n rows labels picked →
  quota hash n a = Ok q →
  in_area a (concat (snd <$> picked))
  = if decide (a ∈ labels) then head q (in_area a rows) else [].
Proof.
  intros Hnd Hp Hq.
  induction Hp as [|b p labels picked (q' & Hq' & ->) _ IH].
  - by rewrite decide_False by apply not_elem_of_nil.
  - apply NoDup_cons in Hnd as [Hb Hnd]. specialize (IH Hnd).
    assert (Hhead : ∀ r, r ∈ head q' (in_area b rows) → Area (cols r) = b).
    { intros r Hr%head_elem. by apply in_area_elem in Hr as [? _]. }
    assert (concat (snd <$> (in_area b rows, head q' (in_area b rows))
                              :: picked)
            = head q' (in_area b rows) ++ concat (snd <$> picked)) as ->
      by reflexivity.
    rewrite in_area_app, IH.
    destruct (decide (a = b)) as [->|Hab].
    + rewrite (decide_False (P := b ∈ labels)) by done.
      rewrite (decide_True (P := b ∈ b :: labels))
        by apply list_elem_of_here.
      rewrite (in_area_same b _ Hhead), app_nil_r. congruence.
    + rewrite (in_area_other a b _ Hhead Hab). simpl.
      destruct (decide (a ∈ labels)) as [Hin|Hnin].
      * by rewrite (decide_True (P := a ∈ b :: labels))
          by (by apply list_elem_of_further).
      * rewrite (decide_False (P := a ∈ b :: labels)); [done|].
        intros [?|?]%elem_of_cons; done.
Qed.

Lemma picked_by_length hash (n : Z) (rows : list Row) labels picked :
  picked_by hash n rows labels picked →
  (length (concat (snd <$> picked))
   ≤ length (concat ((fun a => filter (fun r => Area (cols r) = a) rows)
                       <$> labels)))%nat.
Proof.
  induction 1 as [|b p labels picked (q & Hq & ->) _ IH]; [done|].
  simpl. rewrite !length_app.
  apply Nat.add_le_mono; [apply length_head_le|exact IH].
Qed.

Lemma head_nil {A} (q : Z) : head q ([] : list A) = [].
Proof. unfold head. destruct (0 <=? q); simpl; by rewrite ?take_nil. Qed.

(** With no more rows than [sample_size], the final [head] cuts nothing:
    each category keeps the first rows of its group, up to its quota. *)
Lemma stratified_sample_uncut hash (n : Z) (rows sample : list Row)
    (a : string) (q : Z) :
  len rows ≤ n → stratified_sample hash n rows = Ok sample →
  quota hash n a = Ok q →
  in_area a sample = head q (in_area a rows).
Proof.
  intros Hn. unfold stratified_sample.
  destruct (mapM _ _) as [picked|e] eqn:Hp; simpl; [|discriminate].
  apply picked_by_groups in Hp. intros [= <-] Hq.
  pose proof (group_labels_NoDup rows) as Hnd.
  assert (Hhead : ∀ l : list Row,
            (length l ≤ length rows)%nat → head n l = l).
  { intros l Hl. unfold head, len in *.
    destruct (Z.leb_spec 0 n); [|lia]. apply take_ge. lia. }
  case_decide as Hwhole.
  - rewrite Hhead by done.
    destruct (decide (a ∈ merge_sort String.le
                        (remove_dups (Area ∘ cols <$> rows)))) as [Ha|Ha].
    + apply list_elem_of_lookup in Ha as (k & Hk).
      destruct (Forall2_lookup_l _ _ _ _ _ Hp Hk) as (p & Hpk & q' & Hq' & ->).
      assert (q' = q) as -> by congruence.
      apply list_elem_of_lookup_2 in Hpk.
      rewrite Forall_forall in Hwhole. specialize (Hwhole _ Hpk).
      simpl in Hwhole. congruence.
    + by rewrite (in_area_absent a rows Ha), head_nil.
  - rewrite Hhead.
    + rewrite (picked_by_area hash n rows a q _ _ Hnd Hp Hq).
      case_decide as Ha; [done|].
      by rewrite (in_area_absent a rows Ha), head_nil.
    + etrans; [apply (picked_by_length _ _ _ _ _ Hp)|].
      by apply groups_length.
Qed.

Lemma length_head_min {A} (q : Z) (l : list A) :
  0 ≤ q → len (head q l) = Z.min q (len l).
Proof.
  intros Hq. unfold head, len. destruct (Z.leb_spec 0 q); [|lia].
  rewrite length_take. lia.
Qed.

Lemma analyze_pair_Some_intro hash (df_rs df_py : list Row) lbl sample :
  rust_only_rows df_rs df_py ≠ [] →
  stratified_sample hash (Z.min 20 (len (rust_only_rows df_rs df_py)))
    (rust_only_rows df_rs df_py) = Ok sample →
  analyze_pair hash df_rs df_py lbl
  = Ok (diff_summary df_rs df_py lbl, Some sample).
Proof.
  rewrite analyze_pair_eq.
  destruct (rust_only_rows df_rs df_py) as [|r0 rows]; [done|].
  by intros _ ->.
Qed.

(** X10: when there are Rust-only rows, at most twenty of them, and no
    area label hashes to zero, [analyze_pair] exports a sample in which the
    final [head(sample_size)] has cut nothing: each area category holds the
    first rows of its group, as many as its quota or all of them when the
    group is smaller, so every category of the Rust-only rows has a row in
    the sample. *)
Theorem small_sample_covers_every_area hash (df_rs df_py : list Row) lbl :
  rust_only_rows df_rs df_py ≠ [] →
  len (rust_only_rows df_rs df_py) ≤ 20 →
  Forall (fun r => hash (Area (cols r)) ≠ 0) (rust_only_rows df_rs df_py) →
  ∃ s sample,
    analyze_pair hash df_rs df_py lbl = Ok (s, Some sample)
    ∧ (∀ a q,
         quota hash (len (rust_only_rows df_rs df_py)) a = Ok q →
         in_area a sample = head q (in_area a (rust_only_rows df_rs df_py))
         ∧ len (in_area a sample)
           = Z.min q (len (in_area a (rust_only_rows df_rs df_py))))
    ∧ (∀ r, r ∈ rust_only_rows df_rs df_py →
            ∃ r', r' ∈ sample ∧ Area (cols r') = Area (cols r)).
Proof.
  intros Hne Hlen Hhash.
  assert (Hmin : Z.min 20 (len (rust_only_rows df_rs df_py))
                 = len (rust_only_rows df_rs df_py)) by lia.
  destruct (stratified_sample_total hash
              (len (rust_only_rows df_rs df_py))
              (rust_only_rows df_rs df_py)) as [sample Hs].
  { by apply Forall_forall. }
  exists (diff_summary df_rs df_py lbl), sample. split; [|split].
  - apply analyze_pair_Some_intro; [done|]. by rewrite Hmin.
  - intros a q Hq.
    pose proof (stratified_sample_uncut hash _ _ _ a q (Z.le_refl _) Hs Hq)
      as Hrows.
    pose proof (quota_range _ _ _ _ Hq).
    split; [done|]. rewrite Hrows. apply length_head_min. lia.
  - exact (stratified_sample_covers _ _ _ _ (Z.le_refl _) Hs).
Qed.

Lemma small_sample_covers_every_area_witness :
  ∃ s sample,
    analyze_pair hash_seed16 (load_output two_areas) [] "main"
    = Ok (s, Some sample)
    ∧ (∀ a q,
         quota hash_seed16
           (len (rust_only_rows (load_output two_areas) [])) a = Ok q →
         in_area a sample
         = head q (in_area a (rust_only_rows (load_output two_areas) []))
         ∧ len (in_area a sample)
           = Z.min q
               (len (in_area a (rust_only_rows (load_output two_areas) []))))
    ∧ (∀ r, r ∈ rust_only_rows (load_output two_areas) [] →
            ∃ r', r' ∈ sample ∧ Area (cols r') = Area (cols r)).
Proof.
  apply (small_sample_covers_every_area hash_seed16 (load_output two_areas)
           [] "main").
  - vm_compute. discriminate.
  - vm_compute. discriminate.
  - by_computation.
Defined.

(** The sample of the nine rows in two categories: the five first INTRON
    rows of six, then the three UPSTREAM rows. *)
Example two_areas_sample :
  ∃ s sample,
    analyze_pair hash_seed16 (load_output two_areas) [] "main"
    = Ok (s, Some sample)
    ∧ Area ∘ cols <$> sample
      = replicate 5 "INTRON" ++ replicate 3 "UPSTREAM".
Proof. eexists _, _. split; vm_compute; reflexivity. Qed.

End CompareOutputsMore.

(** ** More properties of [verify_matches.py] *)

Module VerifyMatchesMore.
Import VerifyMatches Inputs Reading Cases PyFacts PyMoreFacts.
Import VerifyMatchesSpec.

(** What a parsed region says about the identifier. *)
Lemma parse_region_parts (s : string) (r : Region) :
  parse_region s = Ok r →
  ∃ a b, s = chrom r +:+ "_" +:+ a +:+ "_" +:+ b
         ∧ mem_char "_" a = false ∧ mem_char "_" b = false
         ∧ int a = Ok (start r) ∧ int b = Ok (end_ r)
         ∧ midpoint r = (start r + end_ r) / 2.
Proof.
  unfold parse_region. simpl rsplit.
  destruct (rpartition "_" s) as [[x b]|] eqn:H1; [|discriminate].
  destruct (rpartition "_" x) as [[c a]|] eqn:H2.
  - simpl. destruct (int a) as [sa|] eqn:Ha; simpl; [|discriminate].
    destruct (int b) as [sb|] eqn:Hb; simpl; [|discriminate].
    intros [= <-]. simpl.
    apply rpartition_Some_inv in H1 as [-> Hnb].
    apply rpartition_Some_inv in H2 as [-> Hna].
    exists a, b. repeat split; try done.
    by rewrite append_assoc_str.
  - simpl. destruct (int b) as [sb|]; simpl; discriminate.
Qed.

(** X13: [parse_region] returns exactly on the identifiers
    [chrom_start_end] whose last two fields hold no underscore and read as
    integers; the result then holds that chromosome, those integers and the
    floor of their mean. *)
Theorem parse_region_accepts_exactly (s : string) (r : Region) :
  parse_region s = Ok r
  ↔ ∃ a b, s = chrom r +:+ "_" +:+ a +:+ "_" +:+ b
           ∧ mem_char "_" a = false ∧ mem_char "_" b = false
           ∧ int a = Ok (start r) ∧ int b = Ok (end_ r)
           ∧ midpoint r = (start r + end_ r) / 2.
Proof.
  split; [apply parse_region_parts|].
  intros (a & b & -> & Ha & Hb & Hs & He & Hm).
  unfold parse_region.
  change ("_" +:+ a +:+ "_" +:+ b) with (String "_" (a +:+ String "_" b)).
  rewrite (rsplit_two _ _ _ _ Ha Hb). simpl.
  rewrite Hs; simpl. rewrite He; simpl.
  destruct r as [c st en mid]; simpl in *. by rewrite Hm.
Qed.

(** X14: an identifier without underscore raises [IndexError]; with a
    single underscore it raises too: [ValueError] when the text after
    the underscore is not an integer, [IndexError] otherwise. *)
Theorem parse_region_too_few_fields (a b : string) :
  mem_char "_" a = false → mem_char "_" b = false →
  parse_region a = Raise IndexError
  ∧ parse_region (a +:+ "_" +:+ b)
    = match int b with
      | Ok _ => Raise IndexError
      | Raise e => Raise e
      end.
Proof.
  intros Ha Hb. unfold parse_region. simpl rsplit. split.
  - by rewrite (rpartition_absent _ _ Ha).
  - change ("_" +:+ b) with (String "_" b).
    rewrite (rpartition_last _ _ _ Hb), (rpartition_absent _ _ Ha). simpl.
    by destruct (int b).
Qed.

Lemma parse_region_too_few_fields_witness :
  parse_region "chr1" = Raise IndexError
  ∧ parse_region "chr1_100"
    = match int "100" with
      | Ok _ => Raise IndexError
      | Raise e => Raise e
      end.
Proof.
  apply (parse_region_too_few_fields "chr1" "100"); reflexivity.
Defined.

(** X15: the midpoint of a parsed region lies between its two
    coordinates, whichever is the larger. *)
Theorem parse_region_midpoint_between (s : string) (r : Region) :
  parse_region s = Ok r →
  Z.min (start r) (end_ r) ≤ midpoint r ≤ Z.max (start r) (end_ r).
Proof.
  intros (a & b & _ & _ & _ & _ & _ & ->)%parse_region_parts.
  pose proof (Z.mul_div_le (start r + end_ r) 2).
  pose proof (Z.mul_succ_div_gt (start r + end_ r) 2). lia.
Qed.

Lemma parse_region_midpoint_between_witness :
  Z.min (start (region_of 1500 1600)) (end_ (region_of 1500 1600))
    ≤ midpoint (region_of 1500 1600)
    ≤ Z.max (start (region_of 1500 1600)) (end_ (region_of 1500 1600)).
Proof.
  apply (parse_region_midpoint_between "chr1_1500_1600" (region_of 1500 1600)).
  reflexivity.
Defined.

(** X16: the calculated distance is never negative, and it is zero exactly
    when the midpoint lies within the gene span. *)
Theorem calculated_distance_nonneg (region : Region)
    (gene_start gene_end reported_distance config_distance : Z) :
  0 ≤ UpDown.calculated_distance
        (verify_upstream_downstream region gene_start gene_end
           reported_distance config_distance)
  ∧ (UpDown.calculated_distance
       (verify_upstream_downstream region gene_start gene_end
          reported_distance config_distance) = 0
     ↔ gene_start ≤ midpoint region ≤ gene_end).
Proof.
  unfold verify_upstream_downstream; simpl.
  destruct (Z.ltb_spec (midpoint region) gene_start);
    destruct (Z.gtb_spec (midpoint region) gene_end); lia.
Qed.

(** X17: the [valid] flag of the directional verifier looks at the
    reported distance and the threshold only: it is the same for any two
    regions and any two gene spans, and [within_threshold] repeats it. *)
Theorem directional_valid_ignores_geometry (region region' : Region)
    (gene_start gene_end gene_start' gene_end' : Z)
    (reported_distance config_distance : Z) :
  UpDown.valid (verify_upstream_downstream region gene_start gene_end
                  reported_distance config_distance)
  = UpDown.valid (verify_upstream_downstream region' gene_start' gene_end'
                    reported_distance config_distance)
  ∧ UpDown.within_threshold
      (verify_upstream_downstream region gene_start gene_end
         reported_distance config_distance)
    = UpDown.valid (verify_upstream_downstream region' gene_start' gene_end'
                      reported_distance config_distance).
Proof. by unfold verify_upstream_downstream. Qed.

(** X18: the overlap test is symmetric: the region overlaps the gene span
    exactly when the gene span, taken as a region, overlaps the region. *)
Theorem verify_overlap_symmetric (r1 r2 : Region) :
  Overlap.valid (verify_overlap r1 (start r2) (end_ r2))
  = Overlap.valid (verify_overlap r2 (start r1) (end_ r1)).
Proof.
  unfold verify_overlap; simpl.
  destruct (Z.ltb_spec (start r1) (end_ r2));
    destruct (Z.gtb_spec (end_ r1) (start r2));
    destruct (Z.ltb_spec (start r2) (end_ r1));
    destruct (Z.gtb_spec (end_ r2) (start r1)); simpl; try done; lia.
Qed.

(** X19: the two verifiers agree in this sense: when the overlap verifier
    accepts a region whose midpoint lies between its start and end, the
    distance that the directional verifier calculates is at most the length
    of the region. *)
Theorem overlap_bounds_distance (region : Region)
    (gene_start gene_end reported_distance config_distance : Z) :
  start region ≤ midpoint region ≤ end_ region →
  Overlap.valid (verify_overlap region gene_start gene_end) = true →
  UpDown.calculated_distance
    (verify_upstream_downstream region gene_start gene_end
       reported_distance config_distance)
  ≤ end_ region - start region.
Proof.
  unfold verify_overlap, verify_upstream_downstream; simpl.
  intros Hmid [Hs He]%andb_prop.
  apply Z.ltb_lt in Hs. apply Z.gtb_lt in He.
  destruct (Z.ltb_spec (midpoint region) gene_start);
    destruct (Z.gtb_spec (midpoint region) gene_end); lia.
Qed.

Lemma overlap_bounds_distance_witness :
  UpDown.calculated_distance
    (verify_upstream_downstream (region_of 900 1100) 1000 2000 0 10000)
  ≤ end_ (region_of 900 1100) - start (region_of 900 1100).
Proof.
  apply (overlap_bounds_distance (region_of 900 1100) 1000 2000 0 10000).
  - vm_compute. split; discriminate.
  - reflexivity.
Defined.

(** A gene record has the fields that the lookup reads. *)
Lemma gene_record_fields (gene_id line : string) :
  is_gene_record_for gene_id line = true →
  ∃ f3 f4 f6, getitem (fields_of line) 3 = Ok f3
              ∧ getitem (fields_of line) 4 = Ok f4
              ∧ getitem (fields_of line) 6 = Ok f6.
Proof.
  unfold is_gene_record_for, is_record.
  intros [[[_ Hlen]%andb_prop _]%andb_prop _]%andb_prop.
  apply Z.leb_le in Hlen. unfold len in Hlen.
  destruct (lookup_lt_is_Some_2 (fields_of line) 3) as [f3 H3]; [lia|].
  destruct (lookup_lt_is_Some_2 (fields_of line) 4) as [f4 H4]; [lia|].
  destruct (lookup_lt_is_Some_2 (fields_of line) 6) as [f6 H6]; [lia|].
  exists f3, f4, f6. by rewrite !getitem_Ok.
Qed.

Lemma record_coords_raises (gene_id line : string) (e : exn) :
  is_gene_record_for gene_id line = true →
  record_coords line = Raise e → e = ValueError.
Proof.
  intros (f3 & f4 & f6 & H3 & H4 & H6)%gene_record_fields.
  unfold record_coords. rewrite H3, H4, H6. simpl.
  destruct (int f3) as [gs|e3] eqn:Hi3; simpl.
  - destruct (int f4) as [ge|e4] eqn:Hi4; simpl; [discriminate|].
    intros [= <-]. by eapply int_raises_ValueError.
  - intros [= <-]. by eapply int_raises_ValueError.
Qed.

(** X20: the lookup never fails on a missing field (the length check
    comes first); the only exception it can raise is the [ValueError] of a
    gene record for the identifier whose start or end is not an integer. *)
Theorem get_gene_coords_raises_only_ValueError (gtf : list string)
    (gene_id : string) (e : exn) :
  get_gene_coords gtf gene_id = Raise e →
  e = ValueError
  ∧ ∃ line, line ∈ gtf ∧ is_gene_record_for gene_id line = true
            ∧ record_coords line = Raise ValueError.
Proof.
  induction gtf as [|line rest IH]; [discriminate|].
  rewrite get_gene_coords_cons.
  destruct (is_gene_record_for gene_id line) eqn:Hm.
  - intros Hr. pose proof (record_coords_raises _ _ _ Hm Hr) as ->.
    split; [done|]. exists line. split; [apply list_elem_of_here|done].
  - intros Hr. destruct (IH Hr) as [-> (l & Hl & Hrec)].
    split; [done|]. exists l. split; [by apply list_elem_of_further|done].
Qed.

Lemma get_gene_coords_raises_only_ValueError_witness :
  ValueError = ValueError
  ∧ ∃ line, line ∈ gtf_bad_start ∧ is_gene_record_for "G2" line = true
            ∧ record_coords line = Raise ValueError.
Proof.
  apply (get_gene_coords_raises_only_ValueError gtf_bad_start "G2" ValueError).
  vm_compute. reflexivity.
Defined.

(** X21: lines that are not records (comments, lines with fewer than nine
    fields) play no part: dropping them all from the annotation leaves
    every lookup unchanged. *)
Theorem get_gene_coords_skips_non_records (gtf : list string)
    (gene_id : string) :
  get_gene_coords (filter (fun l => is_record l = true) gtf) gene_id
  = get_gene_coords gtf gene_id.
Proof.
  induction gtf as [|line rest IH]; [reflexivity|].
  rewrite filter_cons, (get_gene_coords_cons line).
  destruct (decide (is_record line = true)) as [Hr|Hr].
  - rewrite get_gene_coords_cons, IH. reflexivity.
  - rewrite IH. unfold is_gene_record_for.
    apply not_true_is_false in Hr. by rewrite Hr.
Qed.

(** X22: identifiers are matched as substrings, so a lookup by a piece of
    an identifier finds a record whenever the lookup by the whole
    identifier does (possibly the record of another gene). *)
Theorem lookup_matches_substrings (gtf : list string) (piece whole : string) :
  contains piece whole = true →
  get_gene_coords gtf whole ≠ Ok None →
  get_gene_coords gtf piece ≠ Ok None.
Proof.
  intros Hsub Hwhole Hpiece. apply Hwhole.
  apply get_gene_coords_not_found. apply get_gene_coords_not_found in Hpiece.
  eapply Forall_impl; [exact Hpiece|]. intros line Hline. simpl in *.
  unfold is_gene_record_for in *.
  destruct (is_record line && bool_decide (feature_type line = "gene"));
    simpl in *; [|done].
  destruct (contains whole line) eqn:Hc; [|done].
  by rewrite (contains_trans _ _ _ Hsub Hc) in Hline.
Qed.

Lemma lookup_matches_substrings_witness :
  get_gene_coords gtf_G1 "G1" ≠ Ok None.
Proof.
  apply (lookup_matches_substrings gtf_G1 "G1" "G10").
  - reflexivity.
  - vm_compute. discriminate.
Defined.

Lemma invalid_tally_app (a b : list printed) :
  invalid_tally (a ++ b) = (invalid_tally a + invalid_tally b)%nat.
Proof. unfold invalid_tally. by rewrite filter_app, length_app. Qed.

Lemma notfound_tally_app (a b : list printed) :
  notfound_tally (a ++ b) = (notfound_tally a + notfound_tally b)%nat.
Proof. unfold notfound_tally. by rewrite filter_app, length_app. Qed.

(** A line about a sample counts in exactly one of the three tallies. *)
Lemma sample_lines_tallies (body : list printed) :
  Forall (fun l => is_Some (sample_number l)) body →
  (valid_tally body + invalid_tally body + notfound_tally body
   = length body)%nat.
Proof.
  induction 1 as [|l body Hl _ IH]; [reflexivity|].
  change (l :: body) with ([l] ++ body).
  rewrite valid_tally_app, invalid_tally_app, notfound_tally_app, length_app.
  rewrite <- IH. simpl length.
  assert (valid_tally [l] + invalid_tally [l] + notfound_tally [l] = 1)%nat;
    [|lia].
  destruct l as [n|i r g|i r g gs ge st ar d res v|vc|c];
    try (by destruct Hl as [? [=]]); try reflexivity.
  unfold valid_tally, invalid_tally, notfound_tally.
  rewrite !filter_cons, !filter_nil. simpl verdict_of. simpl is_not_found.
  destruct (result_valid res); repeat case_decide; try done; simpl; lia.
Qed.

Lemma verify_loop_length gtf rows :
  ∀ i valid_count valid_count' out,
    verify_loop gtf i rows valid_count = Ok (valid_count', out) →
    length out = length rows.
Proof.
  induction rows as [|row rest IH]; intros i vc vc' out; simpl.
  - by intros [= <- <-].
  - destruct (verify_sample gtf i row vc) as [[vc1 out1]|] eqn:Hs; simpl;
      [|discriminate].
    destruct (verify_loop gtf (S i) rest vc1) as [[vc2 out2]|] eqn:Hl; simpl;
      [|discriminate].
    intros [= <- <-].
    apply verify_sample_line in Hs as (l & -> & _).
    apply IH in Hl. simpl. by rewrite Hl.
Qed.

(** The lines of a run: the announcement, one line per verified sample,
    the count of valid samples and the closing message. *)
Lemma main_lines gtf samples_file out :
  main gtf samples_file = Ok out →
  ∃ body,
    out = Verifying (len (read_samples samples_file)) :: body
            ++ [SummaryValid (Z.of_nat (valid_tally out));
                Conclusion (conclude (Z.of_nat (valid_tally out)))]
    ∧ length body = Nat.min 10 (length (read_samples samples_file))
    ∧ Forall (fun l => is_Some (sample_number l)) body
    ∧ valid_tally out = valid_tally body
    ∧ invalid_tally out = invalid_tally body
    ∧ notfound_tally out = notfound_tally body.
Proof.
  intros (vc & body & Hloop & Hout & Hvc)%main_output.
  exists body. rewrite <- Hvc. split; [exact Hout|].
  pose proof (verify_loop_length _ _ _ _ _ _ Hloop) as Hlen.
  rewrite length_take in Hlen.
  apply verify_loop_lines in Hloop as (_ & Hnum & _).
  split; [done|]. split.
  { apply Forall_forall. intros l (j & Hj)%list_elem_of_lookup.
    rewrite (Hnum j l Hj). eauto. }
  rewrite Hout.
  change (Verifying ?n :: body ++ ?t) with ([Verifying n] ++ body ++ t).
  rewrite !valid_tally_app, !invalid_tally_app, !notfound_tally_app.
  unfold valid_tally at 1 3, invalid_tally at 1 3, notfound_tally at 1 3.
  simpl. lia.
Qed.

(** X23: in a completed run every verified sample gets exactly one
    outcome: the VALID verdicts, the INVALID verdicts and the "GENE NOT
    FOUND" lines together number the samples verified, which are the first
    ten at most; the printed count is the number of VALID verdicts. *)
Theorem main_one_outcome_per_sample (gtf samples_file : list string)
    (out : list printed) :
  main gtf samples_file = Ok out →
  (valid_tally out + invalid_tally out + notfound_tally out
   = Nat.min 10 (length (read_samples samples_file)))%nat
  ∧ SummaryValid (Z.of_nat (valid_tally out)) ∈ out
  ∧ Verifying (len (read_samples samples_file)) ∈ out.
Proof.
  intros (body & Hout & Hlen & Hbody & Hv & Hi & Hn)%main_lines.
  split; [|split].
  - rewrite Hv, Hi, Hn. by rewrite sample_lines_tallies.
  - rewrite Hout at 2.
    apply list_elem_of_further, elem_of_app. right. apply list_elem_of_here.
  - rewrite Hout. apply list_elem_of_here.
Qed.

Lemma main_one_outcome_per_sample_witness :
  (valid_tally valid_then_missing_out + invalid_tally valid_then_missing_out
   + notfound_tally valid_then_missing_out
   = Nat.min 10 (length (read_samples valid_then_missing)))%nat
  ∧ SummaryValid (Z.of_nat (valid_tally valid_then_missing_out))
      ∈ valid_then_missing_out
  ∧ Verifying (len (read_samples valid_then_missing))
      ∈ valid_then_missing_out.
Proof.
  apply (main_one_outcome_per_sample gtf_G1 valid_then_missing
           valid_then_missing_out).
  vm_compute. reflexivity.
Defined.

(** X24: the closing message is decided by the count of VALID verdicts
    alone.  "All samples VALID" is printed exactly when there are ten of
    them, and then ten samples were verified with no INVALID verdict and no
    gene missing; "All samples INVALID" is printed exactly when there is
    none, whatever the number of INVALID verdicts. *)
Theorem closing_message_counts_valid_only (gtf samples_file : list string)
    (out : list printed) :
  main gtf samples_file = Ok out →
  (Conclusion AllValid ∈ out ↔ valid_tally out = 10%nat)
  ∧ (Conclusion AllInvalid ∈ out ↔ valid_tally out = 0%nat)
  ∧ (Conclusion AllValid ∈ out →
     invalid_tally out = 0%nat ∧ notfound_tally out = 0%nat
     ∧ (10 ≤ length (read_samples samples_file))%nat).
Proof.
  intros Hmain.
  destruct (main_lines _ _ _ Hmain) as (body & Hout & Hlen & Hbody & Hv & Hi & Hn).
  pose proof (sample_lines_tallies body Hbody) as Hsum.
  assert (Hc : ∀ c, Conclusion c ∈ out
                    ↔ c = conclude (Z.of_nat (valid_tally out))).
  { intros c. rewrite Hout at 1.
    rewrite elem_of_cons, elem_of_app, elem_of_cons, list_elem_of_singleton.
    split.
    - intros [[=]|[Hin|[[=]|[= ->]]]]; [|done].
      rewrite Forall_forall in Hbody. by destruct (Hbody _ Hin) as [? [=]].
    - intros ->. right. right. by right. }
  assert (Hall : Conclusion AllValid ∈ out ↔ valid_tally out = 10%nat).
  { rewrite Hc. unfold conclude. repeat case_decide; split; try done; lia. }
  split; [exact Hall|]. split.
  - rewrite Hc. unfold conclude. repeat case_decide; split; try done; lia.
  - intros H10%Hall. lia.
Qed.

Lemma closing_message_counts_valid_only_witness :
  (Conclusion AllValid ∈ valid_then_missing_out
   ↔ valid_tally valid_then_missing_out = 10%nat)
  ∧ (Conclusion AllInvalid ∈ valid_then_missing_out
     ↔ valid_tally valid_then_missing_out = 0%nat)
  ∧ (Conclusion AllValid ∈ valid_then_missing_out →
     invalid_tally valid_then_missing_out = 0%nat
     ∧ notfound_tally valid_then_missing_out = 0%nat
     ∧ (10 ≤ length (read_samples valid_then_missing))%nat).
Proof.
  apply (closing_message_counts_valid_only gtf_G1 valid_then_missing).
  vm_compute. reflexivity.
Defined.

Lemma filter_none {A} (P : A → Prop) `{∀ x, Decision (P x)} (l : list A) :
  Forall (fun x => ¬ P x) l → filter P l = [].
Proof.
  induction 1 as [|x l Hx _ IH]; [done|].
  by rewrite filter_cons, decide_False.
Qed.

(** X25: a sample file that holds only its header and blank lines is
    reported as "All samples INVALID", whatever the annotation, which is
    not read. *)
Theorem main_without_samples (gtf samples_file : list string) :
  Forall (fun l => strip l = "") (tail samples_file) →
  main gtf samples_file
  = Ok [Verifying 0; SummaryValid 0; Conclusion AllInvalid].
Proof.
  intros Hblank. unfold main, read_samples.
  rewrite filter_none; [reflexivity|].
  eapply Forall_impl; [exact Hblank|]. intros l Hl Hne. by apply Hne.
Qed.

Lemma main_without_samples_witness :
  main gtf_G1 blank_samples
  = Ok [Verifying 0; SummaryValid 0; Conclusion AllInvalid].
Proof.
  apply (main_without_samples gtf_G1 blank_samples).
  repeat constructor.
Defined.

(** X26: every row that [main] reads from the sample file comes from a
    non-blank line after the header; joining its fields with tabs gives the
    stripped line back, no field holds a tab, and the first field is not
    empty (leading empty columns are lost with the stripped whitespace). *)
Theorem read_samples_rows (samples_file : list string) (row : list string) :
  row ∈ read_samples samples_file →
  ∃ l, l ∈ tail samples_file
       ∧ String.concat (String "009" "") row = strip l
       ∧ Forall (fun f => mem_char "009" f = false) row
       ∧ ∃ f fs, row = f :: fs ∧ f ≠ "".
Proof.
  unfold read_samples.
  intros (l & -> & [Hne Hl]%list_elem_of_filter)%list_elem_of_fmap.
  exists l. split; [done|]. split; [apply concat_split|].
  split; [apply split_fields_no_sep|].
  destruct (strip l) as [|c t] eqn:Hs; [done|].
  pose proof (strip_first _ _ _ Hs) as Hc.
  destruct (split_first_nonempty "009" c t) as (f & fs & ->).
  { intros ->. discriminate. }
  by exists (String c f), fs.
Qed.

Lemma read_samples_rows_witness :
  ∃ l, l ∈ tail valid_then_missing
       ∧ String.concat (String "009" "") missing_row = strip l
       ∧ Forall (fun f => mem_char "009" f = false) missing_row
       ∧ ∃ f fs, missing_row = f :: fs ∧ f ≠ "".
Proof.
  apply (read_samples_rows valid_then_missing missing_row).
  by_computation.
Defined.

(** X27: a sampled row with a directional area whose gene is found is
    VALID exactly when its reported distance is at most 10000, whatever the
    region and the gene coordinates; an empty distance field counts as 0
    and so is always VALID. *)
Theorem directional_row_verdict (gtf : list string) (i : nat)
    (row : list string) (region_str gene_id area d : string) (distance : Z)
    (region : Region) (gene_start gene_end : Z) (strand : string)
    (valid_count : Z) :
  row !! 0%nat = Some region_str → row !! 2%nat = Some gene_id →
  row !! 5%nat = Some area → row !! 6%nat = Some d →
  (if decide (d = "") then Ok 0 else int d) = Ok distance →
  area = "UPSTREAM" ∨ area = "DOWNSTREAM" →
  parse_region region_str = Ok region →
  get_gene_coords gtf gene_id = Ok (Some (gene_start, gene_end, strand)) →
  verify_sample gtf i row valid_count
  = Ok (if distance <=? 10000 then valid_count + 1 else valid_count,
        [SampleReport (S i) region_str gene_id gene_start gene_end strand
           area distance
           (OfUpDown (verify_upstream_downstream region gene_start gene_end
                        distance config_distance_default))
           (if distance <=? 10000 then "VALID" else "INVALID")])
  ∧ (d = "" → distance = 0).
Proof.
  intros H0 H2 H5 H6 Hd Harea Hregion Hcoords. split.
  - unfold verify_sample.
    rewrite (proj2 (getitem_Ok row 0 region_str) H0); simpl.
    rewrite (proj2 (getitem_Ok row 2 gene_id) H2); simpl.
    rewrite (proj2 (getitem_Ok row 5 area) H5); simpl.
    rewrite (proj2 (getitem_Ok row 6 d) H6); simpl.
    unfold mret, result_ret. rewrite Hd; simpl.
    rewrite Hregion; simpl. rewrite Hcoords; simpl.
    unfold report_sample. rewrite bool_decide_eq_true_2 by done.
    reflexivity.
  - intros ->. simpl in Hd. congruence.
Qed.

Lemma directional_row_verdict_witness :
  verify_sample gtf_G1 0 no_distance_row 0
  = Ok (if 0 <=? 10000 then 0 + 1 else 0,
        [SampleReport 1 "chr1_400_600" "G1" 1000 2000 "+" "UPSTREAM" 0
           (OfUpDown (verify_upstream_downstream (region_of 400 600) 1000 2000
                        0 config_distance_default))
           (if 0 <=? 10000 then "VALID" else "INVALID")])
  ∧ ("" = "" → 0 = 0).
Proof.
  apply (directional_row_verdict gtf_G1 0 no_distance_row "chr1_400_600" "G1"
           "UPSTREAM" "" 0 (region_of 400 600) 1000 2000 "+" 0).
  - reflexivity.
  - reflexivity.
  - reflexivity.
  - reflexivity.
  - reflexivity.
  - by left.
  - vm_compute. reflexivity.
  - vm_compute. reflexivity.
Defined.

Lemma getitem_raises {A} (xs : list A) (i : nat) (e : exn) :
  getitem xs i = Raise e → e = IndexError.
Proof. unfold getitem. destruct (xs !! i); [discriminate|]. by intros [= <-]. Qed.

(** A row with fewer than seven fields stops the loop body with
    [IndexError], before anything is parsed or looked up. *)
Lemma verify_sample_short_row (gtf : list string) (i : nat)
    (row : list string) (valid_count : Z) :
  (length row < 7)%nat → verify_sample gtf i row valid_count = Raise IndexError.
Proof.
  intros Hlen. unfold verify_sample.
  assert (H6 : getitem row 6 = Raise IndexError).
  { unfold getitem. by rewrite lookup_ge_None_2 by lia. }
  destruct (getitem row 0) as [x0|e0] eqn:H0; simpl;
    [|by rewrite (getitem_raises _ _ _ H0)].
  destruct (getitem row 2) as [x2|e2] eqn:H2; simpl;
    [|by rewrite (getitem_raises _ _ _ H2)].
  destruct (getitem row 5) as [x5|e5] eqn:H5; simpl;
    [|by rewrite (getitem_raises _ _ _ H5)].
  by rewrite H6.
Qed.

Lemma verify_loop_app gtf (pre rest : list (list string)) :
  ∀ i valid_count,
    verify_loop gtf i (pre ++ rest) valid_count
    = '(vc, out) ← verify_loop gtf i pre valid_count;
      '(vc', out') ← verify_loop gtf (i + length pre) rest vc;
      mret (vc', out ++ out').
Proof.
  induction pre as [|row pre IH]; intros i vc; simpl.
  - rewrite Nat.add_0_r.
    destruct (verify_loop gtf i rest vc) as [[vc' out']|]; reflexivity.
  - destruct (verify_sample gtf i row vc) as [[vc1 out1]|]; simpl; [|done].
    rewrite IH. replace (S i + length pre)%nat with (i + S (length pre))%nat
      by lia.
    destruct (verify_loop gtf (S i) pre vc1) as [[vc2 out2]|]; simpl; [|done].
    destruct (verify_loop gtf (i + S (length pre)) rest vc2)
      as [[vc3 out3]|]; simpl; [|done].
    by rewrite app_assoc.
Qed.

(** X28: [main] stops with [IndexError] at the first verified row that has
    fewer than seven fields, when the rows before it went through; nothing
    is reported for the run. *)
Theorem main_short_row (gtf samples_file : list string)
    (pre post : list (list string)) (row : list string) (done_ : Z * list printed) :
  take 10 (read_samples samples_file) = pre ++ row :: post →
  (length row < 7)%nat →
  verify_loop gtf 0 pre 0 = Ok done_ →
  main gtf samples_file = Raise IndexError.
Proof.
  intros Hrows Hshort Hpre. unfold main. cbv zeta.
  rewrite Hrows, verify_loop_app, Hpre. destruct done_ as [vc out]. simpl.
  by rewrite verify_sample_short_row.
Qed.

Lemma main_short_row_witness :
  main gtf_G1 short_second_row = Raise IndexError.
Proof.
  apply (main_short_row gtf_G1 short_second_row
           [["chr1_1500_1600"; "0"; "G1"; "T1"; "1"; "INTRON"; "0"; "0"; "100";
             "10"; "a"; "b"; "c"; "k"]]
           [] ["chr1_1500_1600"; "0"; "G1"]
           (1, [SampleReport 1 "chr1_1500_1600" "G1" 1000 2000 "+" "INTRON" 0
                  (OfOverlap {| Overlap.valid := true;
                                Overlap.overlaps_gene := true |}) "VALID"])).
  - vm_compute. reflexivity.
  - simpl. lia.
  - vm_compute. reflexivity.
Defined.

End VerifyMatchesMore.
